(** * Load data analysis system: the inverter power recurrence and its gain evaluator

    A shallow embedding of [src/main.py] ([truncate_decimal],
    [parse_k_expression], [calculate_inverter_power]) and of the older
    [src/simple_analysis.py] ([parse_k_expression]), followed by the code
    around them: [parse_time_to_seconds], [filter_data_by_time], the compute
    branch of [main] and [read_csv_with_encoding] of main.py, and the
    recurrence of [analyze_load_data] of simple_analysis.py.

    Numbers.  The code is embedded twice.  In the main embedding Python
    floats are exact rationals ([Q]): every arithmetic operation is the
    exact one, [math.floor] is [Qfloor], and equality of numbers is [Qeq]
    ([==]).  Rounding, infinities and NaN are not in it: where the code
    stops with an error of [math.floor] (an infinite or NaN value), the
    exact embedding returns.  The general statements are therefore made
    about the runs that return, and only where they do not lean on a
    quotient or a product being exact.  Module
    [Binary64] embeds [truncate_decimal] and the loop of
    [calculate_inverter_power] again on binary64 floats, with the errors of
    [math.floor]; it evaluates the code on given inputs bit for bit and
    shows where the code and the exact arithmetic part.

    Strings.  A Python [str] is modelled by its UTF-8 bytes ([string]); the
    glyph for the free variable is the two bytes 206, 187.  [str.strip] and
    [str.isdigit] are modelled on ASCII text: white space and digits outside
    ASCII are not recognised as such.

    Exceptions.  Fallible code returns [result]; a [try]/[except] is a match
    on it. *)

From Stdlib Require Import ZArith QArith Qround Qminmax Qabs Lia Lqa.
From Stdlib Require Import Bool List String Ascii DecimalString.
From Stdlib Require PrimFloat FloatOps SpecFloat Uint63.
Import ListNotations.

Open Scope Q_scope.

(** ** Exceptions *)

Inductive exception : Type :=
| IndexError
| ValueError
| AttributeError
| EvalError  (* whatever escapes [eval(...)] or the [float(...)] around it *)
| UserError (class_name : string).

Inductive result (A : Type) : Type :=
| Ok (value : A)
| Raise (e : exception).

Arguments Ok {A} value.
Arguments Raise {A} e.

(** ** [truncate_decimal] (main.py 43-46, simple_analysis.py 11-14)

    Over exact rationals; [Binary64.truncate_decimal] below is the same
    function on binary64 floats, where the product by 10 is rounded before
    the floor is taken. *)

Definition truncate_decimal (value : Q) (decimals : nat) : Q :=
  let multiplier := inject_Z (10 ^ Z.of_nat decimals) in
  inject_Z (Qfloor (value * multiplier)) / multiplier.

(** Every call site relies on the default [decimals=1]. *)
Definition truncate1 (value : Q) : Q := truncate_decimal value 1.

(** Python's two-argument [min] and [max] return the first argument unless
    the second is strictly smaller (larger): [Qmin] and [Qmax] do the same. *)
Definition py_min (a b : Q) : Q := Qmin a b.
Definition py_max (a b : Q) : Q := Qmax a b.

(** Comparisons as the code tests them. *)
Definition Qlt_bool (a b : Q) : bool := negb (Qle_bool b a).

(** ** Strings: the [str] methods the evaluator calls *)

Open Scope string_scope.

(** A [str] is held as its UTF-8 bytes.  [is_space] and [is_digit] are
    the ASCII part of what [str.strip] removes and of what [str.isdigit]
    accepts: on a string of ASCII characters they decide as Python does;
    white space and digits outside ASCII (U+3000, the full-width digits)
    are not recognised, so statements below that depend on them are made
    for ASCII characters. *)
Definition is_space (c : ascii) : bool :=
  let n := nat_of_ascii c in
  ((9 <=? n) && (n <=? 13) || (28 <=? n) && (n <=? 32))%nat.

Definition is_digit (c : ascii) : bool :=
  let n := nat_of_ascii c in ((48 <=? n) && (n <=? 57))%nat.

Fixpoint lstrip (s : string) : string :=
  match s with
  | String c s' => if is_space c then lstrip s' else s
  | EmptyString => EmptyString
  end.

Fixpoint rstrip (s : string) : string :=
  match s with
  | EmptyString => EmptyString
  | String c s' =>
      match rstrip s' with
      | EmptyString => if is_space c then EmptyString else String c EmptyString
      | r => String c r
      end
  end.

(** [s.strip()] *)
Definition strip (s : string) : string := rstrip (lstrip s).

(** [s.replace(old, new)] for a non-empty [old] (every call site passes a
    non-empty constant): occurrences are replaced left to right without
    overlap; [skip] counts the characters of a match still to be dropped. *)
Fixpoint replace_from (old new : string) (skip : nat) (s : string) : string :=
  match s with
  | EmptyString => EmptyString
  | String c s' =>
      match skip with
      | S k => replace_from old new k s'
      | O =>
          if prefix old s
          then new ++ replace_from old new (Nat.pred (String.length old)) s'
          else String c (replace_from old new 0 s')
      end
  end.

Definition replace (old new s : string) : string := replace_from old new 0 s.

Fixpoint all_chars (p : ascii -> bool) (s : string) : bool :=
  match s with
  | EmptyString => true
  | String c s' => p c && all_chars p s'
  end.

(** [s.isdigit()]: false on the empty string. *)
Definition isdigit (s : string) : bool :=
  match s with
  | EmptyString => false
  | _ => all_chars is_digit s
  end.

Fixpoint in_set (c : ascii) (set : string) : bool :=
  match set with
  | EmptyString => false
  | String d set' => Ascii.eqb c d || in_set c set'
  end.

Definition allowed_chars : string := "0123456789+-*/.()eE".

(** ** Numeric literals *)

Definition digit_value (c : ascii) : Z := Z.of_nat (nat_of_ascii c) - 48.

(** The longest run of digits at the front of [s], and what follows it. *)
Fixpoint take_digits (s : string) : list Z * string :=
  match s with
  | String c s' =>
      if is_digit c
      then let (ds, r) := take_digits s' in (digit_value c :: ds, r)
      else ([], s)
  | EmptyString => ([], EmptyString)
  end.

Definition digits_value (ds : list Z) : Z :=
  fold_left (fun acc d => 10 * acc + d)%Z ds 0%Z.

Definition is_exp_letter (c : ascii) : bool :=
  Ascii.eqb c "e" || Ascii.eqb c "E".

(** An exponent part [e|E [+|-] digits] at the front of [s], if there is one. *)
Definition take_exponent (s : string) : Z * string :=
  match s with
  | String c r =>
      if is_exp_letter c then
        match r with
        | String "+" r' =>
            match take_digits r' with
            | ([], _) => (0%Z, s)
            | (ds, r'') => (digits_value ds, r'')
            end
        | String "-" r' =>
            match take_digits r' with
            | ([], _) => (0%Z, s)
            | (ds, r'') => ((- digits_value ds)%Z, r'')
            end
        | _ =>
            match take_digits r with
            | ([], _) => (0%Z, s)
            | (ds, r') => (digits_value ds, r')
            end
        end
      else (0%Z, s)
  | EmptyString => (0%Z, s)
  end.

Record number : Type := {
  num_value : Q;
  num_int_digits : option (list Z); (* the digits, when the literal is a plain integer *)
  num_rest : string
}.

(** A decimal number at the front of [s]: digits with an optional point and
    an optional exponent, at least one digit before the exponent. *)
Definition scan_number (s : string) : option number :=
  let (ip, r1) := take_digits s in
  let '(has_point, fp, r2) :=
    match r1 with
    | String "." r => let (fp, r') := take_digits r in (true, fp, r')
    | _ => (false, [], r1)
    end in
  match (ip ++ fp)%list with
  | [] => None
  | ds =>
      let (ex, r3) := take_exponent r2 in
      let mant := inject_Z (digits_value ds) / inject_Z (10 ^ Z.of_nat (List.length fp)) in
      let is_float := has_point || negb (String.eqb r3 r2) in
      Some {| num_value := (mant * Qpower 10 ex)%Q;
              num_int_digits := if is_float then None else Some ip;
              num_rest := r3 |}
  end.

Definition split_sign (s : string) : Q * string :=
  match s with
  | String "-" r => ((-1)%Q, r)
  | String "+" r => (1%Q, r)
  | _ => (1%Q, s)
  end.

(** [float(s)] on a string: an optional sign and one number, nothing else.
    (The call site passes digits, points and minus signs only.) *)
Definition py_float (s : string) : result Q :=
  let (sign, body) := split_sign s in
  match scan_number body with
  | Some n => if String.eqb (num_rest n) "" then Ok (sign * num_value n)%Q
              else Raise ValueError
  | None => Raise ValueError
  end.

(** ** The interpreter's [eval] on a sanitized expression

    [parse_k_expression] hands [eval] a string over the characters of
    [allowed_chars], with no builtins and no names.  Over that alphabet an
    expression that yields a number is built from numeric literals, unary
    and binary [+ -], [* / // **] and parentheses.  A name ([e], [E], ...),
    an attribute reference or the ellipsis (a point outside a number), a
    call ([x(y)]) and the empty tuple all end in an exception or in a value
    [float] rejects, so the model answers [None] for them as it does for a
    syntax error.  Resource limits of the interpreter are not modelled. *)

Inductive token : Type :=
| TNum (q : Q)
| TPlus | TMinus | TStar | TSlash | TDStar | TDSlash
| TLParen | TRParen.

(** An integer literal may start with a zero only when it is all zeros. *)
Definition legal_int (ds : list Z) : bool :=
  match ds with
  | 0%Z :: _ :: _ => forallb (Z.eqb 0) ds
  | _ => true
  end.

Definition legal_number (n : number) : bool :=
  match num_int_digits n with
  | Some ds => legal_int ds
  | None => true
  end.

Definition cons_token (t : token) (r : option (list token)) : option (list token) :=
  option_map (cons t) r.

(** [skip] counts the characters of the current token still to be dropped. *)
Fixpoint tokenize_from (skip : nat) (s : string) : option (list token) :=
  match s with
  | EmptyString => Some []
  | String c s' =>
      match skip with
      | S k => tokenize_from k s'
      | O =>
          if is_digit c || Ascii.eqb c "." then
            match scan_number s with
            | Some n =>
                if legal_number n
                then cons_token (TNum (num_value n))
                       (tokenize_from
                          (String.length s' - String.length (num_rest n)) s')
                else None
            | None => None
            end
          else if Ascii.eqb c "+" then cons_token TPlus (tokenize_from 0 s')
          else if Ascii.eqb c "-" then cons_token TMinus (tokenize_from 0 s')
          else if Ascii.eqb c "(" then cons_token TLParen (tokenize_from 0 s')
          else if Ascii.eqb c ")" then cons_token TRParen (tokenize_from 0 s')
          else if Ascii.eqb c "*" then
            match s' with
            | String "*" _ => cons_token TDStar (tokenize_from 1 s')
            | _ => cons_token TStar (tokenize_from 0 s')
            end
          else if Ascii.eqb c "/" then
            match s' with
            | String "/" _ => cons_token TDSlash (tokenize_from 1 s')
            | _ => cons_token TSlash (tokenize_from 0 s')
            end
          else None
      end
  end.

Definition tokenize (s : string) : option (list token) := tokenize_from 0 s.

Inductive operator : Type :=
| OAdd | OSub | OMul | ODiv | OFloorDiv | OPow | ONeg | OPos | OParen.

(** Binding strength, as in the language reference: [**] binds tighter than
    a unary sign on its left, a unary sign tighter than [* / //]. *)
Definition prec (o : operator) : nat :=
  match o with
  | OParen => 0
  | OAdd | OSub => 1
  | OMul | ODiv | OFloorDiv => 2
  | ONeg | OPos => 3
  | OPow => 4
  end.

Definition is_integer (q : Q) : bool := (Qnum q mod Zpos (Qden q) =? 0)%Z.

Section Interpreter.

(** [x ** y] for a non-integer [y] is a floating point power that exact
    rationals cannot follow: it is left to the runtime.  [None] stands for
    an exception or a complex result. *)
Variable float_pow : Q -> Q -> option Q.

Definition py_pow (x y : Q) : option Q :=
  if is_integer y then
    let n := (Qnum y / Zpos (Qden y))%Z in
    if Qeq_bool x 0 && (n <? 0)%Z then None else Some (Qpower x n)
  else float_pow x y.

Definition binop (o : operator) (a b : Q) : option Q :=
  match o with
  | OAdd => Some (a + b)%Q
  | OSub => Some (a - b)%Q
  | OMul => Some (a * b)%Q
  | ODiv => if Qeq_bool b 0 then None else Some (a / b)%Q
  | OFloorDiv => if Qeq_bool b 0 then None else Some (inject_Z (Qfloor (a / b)))
  | OPow => py_pow a b
  | _ => None
  end.

(** Apply the operator on top of the stack to the operands on top of the
    value stack. *)
Definition apply_op (o : operator) (vals : list Q) : option (list Q) :=
  match o, vals with
  | ONeg, a :: r => Some ((- a)%Q :: r)
  | OPos, a :: r => Some (a :: r)
  | OParen, _ => None
  | (ONeg | OPos), [] => None
  | _, b :: a :: r => option_map (fun v => v :: r) (binop o a b)
  | _, _ => None
  end.

(** Before a binary operator of strength [p] is pushed, the pending
    operators that bind at least as tightly (strictly tighter when the new
    one is right associative) are applied. *)
Fixpoint reduce (p : nat) (right_assoc : bool) (ops : list operator) (vals : list Q)
  : option (list operator * list Q) :=
  match ops with
  | [] => Some ([], vals)
  | o :: ops' =>
      if (if right_assoc then p <? prec o else p <=? prec o)%nat then
        match apply_op o vals with
        | Some vals' => reduce p right_assoc ops' vals'
        | None => None
        end
      else Some (ops, vals)
  end.

(** At a closing parenthesis: apply down to the matching opening one. *)
Fixpoint close_paren (ops : list operator) (vals : list Q)
  : option (list operator * list Q) :=
  match ops with
  | [] => None
  | OParen :: ops' => Some (ops', vals)
  | o :: ops' =>
      match apply_op o vals with
      | Some vals' => close_paren ops' vals'
      | None => None
      end
  end.

(** At the end of the input: apply everything that is pending. *)
Fixpoint finish (ops : list operator) (vals : list Q) : option Q :=
  match ops with
  | [] => match vals with [v] => Some v | _ => None end
  | o :: ops' =>
      match apply_op o vals with
      | Some vals' => finish ops' vals'
      | None => None
      end
  end.

Definition binary_of (t : token) : option operator :=
  match t with
  | TPlus => Some OAdd
  | TMinus => Some OSub
  | TStar => Some OMul
  | TSlash => Some ODiv
  | TDSlash => Some OFloorDiv
  | TDStar => Some OPow
  | _ => None
  end.

(** One pass over the tokens.  [operand] tells whether an operand is
    expected next (start, after an operator or an opening parenthesis). *)
Fixpoint evaluate (toks : list token) (operand : bool)
         (ops : list operator) (vals : list Q) : option Q :=
  match toks with
  | [] => if operand then None else finish ops vals
  | t :: rest =>
      if operand then
        match t with
        | TNum q => evaluate rest false ops (q :: vals)
        | TPlus => evaluate rest true (OPos :: ops) vals
        | TMinus => evaluate rest true (ONeg :: ops) vals
        | TLParen => evaluate rest true (OParen :: ops) vals
        | _ => None
        end
      else
        match t with
        | TRParen =>
            match close_paren ops vals with
            | Some (ops', vals') => evaluate rest false ops' vals'
            | None => None
            end
        | _ =>
            match binary_of t with
            | Some o =>
                match reduce (prec o) (match o with OPow => true | _ => false end)
                             ops vals with
                | Some (ops', vals') => evaluate rest true (o :: ops') vals'
                | None => None
                end
            | None => None
            end
        end
  end.

(** [float(eval(expr, {"__builtins__": None}, {}))]: [None] when it raises. *)
Definition py_eval (expr : string) : option Q :=
  match tokenize expr with
  | Some toks => evaluate toks true [] []
  | None => None
  end.

End Interpreter.

(** ** [parse_k_expression] (main.py 61-97) *)

Definition default_k : Q := 1 # 100.

(** The substitute for a zero lambda, [1e-9]. *)
Definition lam_epsilon : Q := 1 # 1000000000.

(** The glyph U+03BB in UTF-8. *)
Definition lambda_glyph : string :=
  String (ascii_of_nat 206) (String (ascii_of_nat 187) EmptyString).

Section Evaluator.

(** [str(x)] of a float: the shortest decimal text that reads back as the
    same binary float, which exact rationals cannot follow in general; it
    is left to the runtime. *)
Variable float_repr : Q -> string.
Variable float_pow : Q -> Q -> option Q.

Definition lam_safe (lambda_val : Q) : Q :=
  if Qeq_bool lambda_val 0 then lam_epsilon else lambda_val.

(** The expression after [strip], the removal of spaces and the rewriting
    of [^] into [**]. *)
Definition preprocess (k_str : string) : string :=
  replace "^" "**" (replace " " "" (strip k_str)).

Definition pure_number (expr : string) : bool :=
  isdigit (replace "-" "" (replace "." "" expr)).

(** The expression after both spellings of the free variable are replaced. *)
Definition substitute (expr : string) (lambda_val : Q) : string :=
  let s := float_repr (lam_safe lambda_val) in
  replace lambda_glyph s (replace "lambda" s expr).

Definition all_allowed (expr : string) : bool :=
  all_chars (fun c => in_set c allowed_chars) expr.

(** The body of the [try] block. *)
Definition parse_k_expression_try (k_str : option string) (lambda_val : Q)
  : result Q :=
  match k_str with
  | None => Ok default_k
  | Some k =>
      let expr := preprocess k in
      if pure_number expr then py_float expr
      else
        let expr := substitute expr lambda_val in
        if negb (all_allowed expr) then Ok default_k
        else
          match py_eval float_pow expr with
          | Some v => Ok v
          | None => Raise EvalError
          end
  end.

(** [except Exception: return 0.01] *)
Definition parse_k_expression (k_str : option string) (lambda_val : Q) : Q :=
  match parse_k_expression_try k_str lambda_val with
  | Ok v => v
  | Raise _ => default_k
  end.

End Evaluator.

(** ** [parse_k_expression] of simple_analysis.py (16-22)

    No screening, and [eval] sees the module's globals and the builtins: what
    it computes is left to the runtime ([None] when it raises). *)

Module SimpleAnalysis.

Section Evaluator.

Variable float_repr : Q -> string.
Variable eval_globals : string -> option Q.

Definition parse_k_expression_try (k_str : option string) (lambda_val : Q)
  : result Q :=
  match k_str with
  | None => Raise AttributeError   (* None has no replace *)
  | Some k =>
      let k := replace lambda_glyph (float_repr lambda_val) (replace " " "" k) in
      match eval_globals k with
      | Some v => Ok v
      | None => Raise EvalError
      end
  end.

Definition parse_k_expression (k_str : option string) (lambda_val : Q) : Q :=
  match parse_k_expression_try k_str lambda_val with
  | Ok v => v
  | Raise _ => default_k
  end.

End Evaluator.

End SimpleAnalysis.

(** ** The recurrence engine: [calculate_inverter_power] (main.py 150-218) *)

Close Scope string_scope.

(** One row of the data frame: columns 0 to 3 pass through, column 4 is the
    load. *)
Record LoadRecord : Type := {
  timestamp : string;
  utc_time : string;
  device_address : string;
  device_type : string;
  load : Q
}.

(** The dictionary appended to [results] for one row. *)
Record OutputRecord : Type := {
  out_timestamp : string;
  out_utc_time : string;
  out_device_address : string;
  out_device_type : string;
  out_load : Q;
  inverter_output : Q;
  inverter_output_percent : Q;
  adjustment : Q;
  aggressive_adjustment : Q;
  adjustment_ratio : Q
}.

(** The local variables of one iteration of the loop. *)
Record Step : Type := {
  step_row : LoadRecord;
  inv_curr : Q;
  grid_i : Q;
  lam_i : Q;
  k_val : Q;
  inc_i : Q;
  aggressive_i : Q;
  ratio_i : Q;
  inv_percent_i : Q
}.

Definition sentinel_ratio : Q := 9999 # 10.

Definition emit (st : Step) : OutputRecord :=
  {| out_timestamp := timestamp (step_row st);
     out_utc_time := utc_time (step_row st);
     out_device_address := device_address (step_row st);
     out_device_type := device_type (step_row st);
     out_load := truncate1 (load (step_row st));
     inverter_output := inv_curr st;
     inverter_output_percent := inv_percent_i st;
     adjustment := inc_i st;
     aggressive_adjustment := aggressive_i st;
     adjustment_ratio := ratio_i st |}.

Section Engine.

Variable float_repr : Q -> string.
Variable float_pow : Q -> Q -> option Q.
Variable k_expression : option string.

(** The body of the loop up to [results.append], entered with the carried
    [inv_curr]. *)
Definition iteration (row : LoadRecord) (inv_in : Q) : Step :=
  let load_i := load row in
  let inv_curr := py_min (py_max 0 inv_in) load_i in
  let inv_curr := truncate1 inv_curr in
  let grid_i := truncate1 (load_i - inv_curr) in
  let lam_i := truncate1 (if Qle_bool load_i 0 then 0 else grid_i / load_i) in
  let k_val := parse_k_expression float_repr float_pow k_expression lam_i in
  let inc_i := k_val * (lam_i ^ 2) * load_i * 1 in
  let inc_i := truncate1 inc_i in
  let aggressive_i := truncate1 (load_i - inv_curr) in
  let ratio_i :=
    if Qeq_bool aggressive_i 0
    then (if Qlt_bool 0 inc_i then sentinel_ratio else 0)
    else truncate1 (inc_i / aggressive_i) in
  let inv_percent_i :=
    truncate1 (if Qle_bool load_i 0 then 0 else (inv_curr / load_i) * 100) in
  {| step_row := row; inv_curr := inv_curr; grid_i := grid_i; lam_i := lam_i;
     k_val := k_val; inc_i := inc_i; aggressive_i := aggressive_i;
     ratio_i := ratio_i; inv_percent_i := inv_percent_i |}.

(** [inv_curr = inv_curr + inc_i] *)
Definition carry (st : Step) : Q := inv_curr st + inc_i st.

(** The lookahead clamp at the end of the loop body; [rest] are the rows
    after the current one. *)
Definition lookahead (inv : Q) (rest : list LoadRecord) : Q :=
  match rest with
  | next :: _ =>
      let next_load := load next in
      if Qlt_bool next_load inv then truncate1 next_load else inv
  | [] => inv
  end.

(** The [for] loop, one [Step] per row. *)
Fixpoint loop (rows : list LoadRecord) (inv : Q) : list Step :=
  match rows with
  | [] => []
  | row :: rest =>
      let st := iteration row inv in
      st :: loop rest (lookahead (carry st) rest)
  end.

(** The initial value is clamped against the first load, which is read
    before the loop: an empty frame fails there. *)
Definition initial_state (df : list LoadRecord) (initial_inv_power : Q) : result Q :=
  match df with
  | [] => Raise IndexError
  | first :: _ => Ok (py_min (py_max 0 initial_inv_power) (load first))
  end.

(** The local variables of every iteration, for what the records do not
    carry (grid draw, ratio, gain). *)
Definition trace (df : list LoadRecord) (initial_inv_power : Q) : result (list Step) :=
  match initial_state df initial_inv_power with
  | Ok inv => Ok (loop df inv)
  | Raise e => Raise e
  end.

(** The function itself.  Over exact rationals the only failure is the
    read of the first load; the failures of [math.floor] on an infinite or
    NaN value (an infinite gain, a NaN load) are those of
    [Binary64.calculate_inverter_power]. *)
Definition calculate_inverter_power (df : list LoadRecord) (initial_inv_power : Q)
  : result (list OutputRecord) :=
  match trace df initial_inv_power with
  | Ok steps => Ok (map emit steps)
  | Raise e => Raise e
  end.

(** The variant the specification asks about: the same loop without the
    lookahead clamp, relying on the entry clamp of the next iteration. *)
Fixpoint loop_entry_clamp_only (rows : list LoadRecord) (inv : Q) : list Step :=
  match rows with
  | [] => []
  | row :: rest =>
      let st := iteration row inv in
      st :: loop_entry_clamp_only rest (carry st)
  end.

Definition calculate_entry_clamp_only (df : list LoadRecord) (initial_inv_power : Q)
  : result (list OutputRecord) :=
  match initial_state df initial_inv_power with
  | Ok inv => Ok (map emit (loop_entry_clamp_only df inv))
  | Raise e => Raise e
  end.

End Engine.

(** ** Auxiliary definitions for the statements *)

Open Scope string_scope.

(** Removing one character: [s.replace(c, '')]. *)
Fixpoint remove_char (c : ascii) (s : string) : string :=
  match s with
  | EmptyString => EmptyString
  | String d s' => if Ascii.eqb d c then remove_char c s' else String d (remove_char c s')
  end.

(** The characters of a numeric literal with sign and point. *)
Definition sign_point_digit (c : ascii) : bool :=
  Ascii.eqb c "." || (Ascii.eqb c "-" || is_digit c).

Definition sign_point (c : ascii) : bool :=
  Ascii.eqb c "." || Ascii.eqb c "-".

(** A decimal literal said in words: an optional leading minus sign, then
    digits with at most one point among them and at least one digit. *)
Fixpoint count_char (c : ascii) (s : string) : nat :=
  match s with
  | EmptyString => 0
  | String d s' => (if Ascii.eqb d c then 1 else 0) + count_char c s'
  end.

Fixpoint has_digit (s : string) : bool :=
  match s with
  | EmptyString => false
  | String c s' => is_digit c || has_digit s'
  end.

Definition digit_or_point (c : ascii) : bool := is_digit c || Ascii.eqb c ".".

Definition unsigned_literal (body : string) : bool :=
  all_chars digit_or_point body && (count_char "." body <=? 1)%nat && has_digit body.

Definition strip_minus (s : string) : string :=
  match s with
  | String "-" r => r
  | _ => s
  end.

Definition decimal_literal (s : string) : bool := unsigned_literal (strip_minus s).

(** Whether [scan_number] reads the whole of [body] as one number. *)
Definition accepts (body : string) : bool :=
  match scan_number body with
  | Some n => String.eqb (num_rest n) ""
  | None => false
  end.

Definition nonempty {A : Type} (l : list A) : bool :=
  match l with
  | [] => false
  | _ => true
  end.

Close Scope string_scope.

(** The entry clamp: [min(max(0, inv), load)], then one decimal. *)
Definition entry (l inv : Q) : Q := truncate1 (py_min (py_max 0 inv) l).

(** ** A concrete runtime for examples

    [repr_tenths] is [str] on the floats the engine passes to the evaluator:
    multiples of 0.1 below 1e16 in magnitude, and the epsilon 1e-9. *)

Open Scope string_scope.

Definition Z_to_string (n : Z) : string :=
  DecimalString.NilZero.string_of_uint (N.to_uint (Z.to_N n)).

Definition repr_tenths (q : Q) : string :=
  if Qeq_bool q lam_epsilon then "1e-09"
  else
    let t := Qfloor (Qabs q * 10) in
    (if Qlt_bool q 0 then "-" else "")
      ++ Z_to_string (t / 10) ++ "." ++ Z_to_string (t mod 10).

(** No floating point power: a non-integer exponent counts as a failure. *)
Definition no_float_pow (x y : Q) : option Q := None.

Definition row_of_load (l : Q) : LoadRecord :=
  {| timestamp := ""; utc_time := ""; device_address := ""; device_type := "";
     load := l |}.

(** [with_load r l] is the row [r] with the load [l]. *)
Definition with_load (r : LoadRecord) (l : Q) : LoadRecord :=
  {| timestamp := timestamp r; utc_time := utc_time r;
     device_address := device_address r; device_type := device_type r;
     load := l |}.

Close Scope string_scope.

(** ** [parse_time_to_seconds] (main.py 48-59) and the builtins it calls *)

Open Scope string_scope.

(** [s.split(sep)] for a one-character separator: always at least one part. *)
Fixpoint split_on (sep : ascii) (s : string) : list string :=
  match s with
  | EmptyString => [EmptyString]
  | String c s' =>
      if Ascii.eqb c sep then EmptyString :: split_on sep s'
      else
        match split_on sep s' with
        | p :: ps => String c p :: ps
        | [] => [String c EmptyString]
        end
  end.

(** The white space [int] skips around a number: tab to carriage return
    and the space (the separators 28 to 31, which [strip] removes, are not
    accepted by [int]). *)
Definition is_int_space (c : ascii) : bool :=
  let n := nat_of_ascii c in
  ((9 <=? n) && (n <=? 13) || (n =? 32))%nat.

Fixpoint lstrip_with (p : ascii -> bool) (s : string) : string :=
  match s with
  | String c s' => if p c then lstrip_with p s' else s
  | EmptyString => EmptyString
  end.

Fixpoint rstrip_with (p : ascii -> bool) (s : string) : string :=
  match s with
  | EmptyString => EmptyString
  | String c s' =>
      match rstrip_with p s' with
      | EmptyString => if p c then EmptyString else String c EmptyString
      | r => String c r
      end
  end.

(** The digits of an integer literal: single underscores are allowed
    between digits.  [prev_digit] tells whether the previous character was a
    digit. *)
Fixpoint int_body (s : string) (prev_digit : bool) (acc : Z) : option Z :=
  match s with
  | EmptyString => if prev_digit then Some acc else None
  | String c s' =>
      if is_digit c then int_body s' true (10 * acc + digit_value c)%Z
      else if Ascii.eqb c "_"
           then (if prev_digit then int_body s' false acc else None)
           else None
  end.

(** [int(s)] on a string, base ten. *)
Definition py_int (s : string) : result Z :=
  let s := rstrip_with is_int_space (lstrip_with is_int_space s) in
  let parsed :=
    match s with
    | String "-" r => option_map Z.opp (int_body r false 0%Z)
    | String "+" r => int_body r false 0%Z
    | _ => int_body s false 0%Z
    end in
  match parsed with
  | Some n => Ok n
  | None => Raise ValueError
  end.

(** The body of the [try] block; the bare [except] turns every failure into
    a [ValueError]. *)
Definition parse_time_to_seconds (time_str : string) : result Z :=
  match split_on ":" time_str with
  | [hours; minutes; seconds] =>
      match py_int hours, py_int minutes, py_int seconds with
      | Ok hours, Ok minutes, Ok seconds =>
          Ok (hours * 3600 + minutes * 60 + seconds)%Z
      | _, _, _ => Raise ValueError
      end
  | _ => Raise ValueError
  end.

(** The conversion of simple_analysis.py (40-41):
    [sum(x * int(t) for x, t in zip([3600, 60, 1], time.split(':')))]. *)
Fixpoint weighted_sum (weights : list Z) (parts : list string) : result Z :=
  match weights, parts with
  | x :: weights', t :: parts' =>
      match py_int t with
      | Ok n =>
          match weighted_sum weights' parts' with
          | Ok rest => Ok (x * n + rest)%Z
          | Raise e => Raise e
          end
      | Raise e => Raise e
      end
  | _, _ => Ok 0%Z
  end.

Definition simple_time_to_seconds (time_str : string) : result Z :=
  weighted_sum [3600; 60; 1]%Z (split_on ":" time_str).

Close Scope string_scope.

(** ** [filter_data_by_time] (main.py 128-148) and its caller *)

(** What [.dt.time] gives for one row. *)
Record time_of_day : Type := {
  hour : Z;
  minute : Z;
  second : Z
}.

(** The two messages the function shows with [st.error]. *)
Inductive ui_error : Type :=
| NoDataInRange
| TimeFilterError.

(** [x.hour * 3600 + x.minute * 60 + x.second] *)
Definition time_seconds (x : time_of_day) : Z :=
  (hour x * 3600 + minute x * 60 + second x)%Z.

Section TimeFilter.

(** [pd.to_datetime(column).dt.time], left to the library: one time per row
    of the column, [None] when it raises. *)
Variable to_datetime : list string -> option (list time_of_day).

Definition in_window (start_seconds end_seconds : Z) (p : LoadRecord * time_of_day) : bool :=
  ((start_seconds <=? time_seconds (snd p)) && (time_seconds (snd p) <=? end_seconds))%Z.

(** The returned frame ([None] for Python's [None]) and the messages shown.
    The two columns the function adds come after the load column and are
    not read by the engine: the rows stay [LoadRecord]s. *)
Definition filter_data_by_time (df : list LoadRecord) (start_time end_time : string)
  : option (list LoadRecord) * list ui_error :=
  match parse_time_to_seconds start_time with
  | Raise _ => (None, [TimeFilterError])
  | Ok start_seconds =>
      match parse_time_to_seconds end_time with
      | Raise _ => (None, [TimeFilterError])
      | Ok end_seconds =>
          match to_datetime (map utc_time df) with
          | None => (None, [TimeFilterError])
          | Some times =>
              let filtered_df :=
                map fst (filter (in_window start_seconds end_seconds)
                                (combine df times)) in
              match filtered_df with
              | [] => (None, [NoDataInRange])
              | _ => (Some filtered_df, [])
              end
          end
      end
  end.

Variable float_repr : Q -> string.
Variable float_pow : Q -> Q -> option Q.

(** The branch of [main] behind the compute button, up to [results_df]
    (main.py 298-306): [None] when the function returns early, otherwise
    what the engine gives. *)
Definition compute_results (df : list LoadRecord) (start_time end_time : string)
           (initial_inv_power : Q) (k_expression : option string)
  : option (result (list OutputRecord)) :=
  match fst (filter_data_by_time df start_time end_time) with
  | None => None
  | Some filtered_df =>
      Some (calculate_inverter_power float_repr float_pow k_expression
              filtered_df initial_inv_power)
  end.

End TimeFilter.

(** ** [read_csv_with_encoding] (main.py 99-126) *)

Open Scope string_scope.

(** The label of the automatic choice, "自动检测(建议)", as its UTF-8 bytes. *)
Definition auto_detect_label : string := "自动检测(建议)".

Definition encodings : list string := ["gbk"; "gb2312"; "utf-8-sig"; "utf-8"; "latin1"].

Close Scope string_scope.

Section ReadCsv.

(** The frame type, its number of columns ([df.shape[1]]) and the reader
    [pd.read_csv(file, encoding=enc, ...)] are the library's.  The file may
    be an open file object, so a read is given the state of the file and
    leaves a new one. *)
Variable frame : Type.
Variable file_state : Type.
Variable shape1 : frame -> nat.
Variable read_csv : string -> file_state -> result frame * file_state.

(** The [for enc in encodings] loop. *)
Fixpoint try_encodings (encs : list string) (st : file_state)
  : result frame * file_state :=
  match encs with
  | [] => (Raise ValueError, st)
  | enc :: rest =>
      match read_csv enc st with
      | (Ok df, st') =>
          if (5 <=? shape1 df)%nat then (Ok df, st') else try_encodings rest st'
      | (Raise _, st') => try_encodings rest st'
      end
  end.

(** [user_encoding] is [None] or a string; the empty string is falsy. *)
Definition read_csv_with_encoding (user_encoding : option string) (st : file_state)
  : result frame * file_state :=
  match user_encoding with
  | Some enc =>
      if negb (String.eqb enc EmptyString) && negb (String.eqb enc auto_detect_label)
      then read_csv enc st
      else try_encodings encodings st
  | None => try_encodings encodings st
  end.

End ReadCsv.

(** ** The recurrence of [analyze_load_data] (simple_analysis.py 48-91)

    The part between the time filter and the plot: from the filtered rows
    to the list [results]. *)

Module SimpleRecurrence.

(** The dictionary appended to [results] for one row. *)
Record SimpleRecord : Type := {
  rec_time : string;     (* 'time' *)
  rec_load : Q;          (* 'load' *)
  rec_inv_power : Q;     (* 'inv_power' *)
  rec_inv_percent : Q;   (* 'inv_percent' *)
  rec_lambda : Q         (* 'lambda' *)
}.

Section Recurrence.

Variable float_repr : Q -> string.
Variable eval_globals : string -> option Q.
Variable k_expression : option string.

(** The [for i in range(1, len(load_data))] loop. *)
Fixpoint later (rows : list LoadRecord) (prev_lambda prev_inv_power : Q)
  : list SimpleRecord :=
  match rows with
  | [] => []
  | row :: rest =>
      let load_i := load row in
      let k := SimpleAnalysis.parse_k_expression float_repr eval_globals
                 k_expression prev_lambda in
      let inc_inv_i := truncate1 (k * (prev_lambda ^ 2) * load_i) in
      let inv_power_i :=
        truncate1 (py_min (py_max 0 (prev_inv_power + inc_inv_i)) load_i) in
      let grid_power_i := truncate1 (load_i - inv_power_i) in
      let lambda_i :=
        truncate1 (if Qlt_bool 0 load_i then grid_power_i / load_i else 0) in
      let inv_percent_i :=
        truncate1 (if Qlt_bool 0 load_i then (inv_power_i / load_i) * 100 else 0) in
      {| rec_time := utc_time row; rec_load := load_i;
         rec_inv_power := inv_power_i; rec_inv_percent := inv_percent_i;
         rec_lambda := lambda_i |}
        :: later rest lambda_i inv_power_i
  end.

(** The first row is handled before the loop; reading it fails on an empty
    frame. *)
Definition results (rows : list LoadRecord) (initial_inv_power : Q)
  : result (list SimpleRecord) :=
  match rows with
  | [] => Raise IndexError
  | row0 :: rest =>
      let load0 := load row0 in
      let inv_power0 := py_min (py_max 0 initial_inv_power) load0 in
      let grid_power0 := load0 - inv_power0 in
      let lambda0 :=
        truncate1 (if Qlt_bool 0 load0 then grid_power0 / load0 else 0) in
      Ok ({| rec_time := utc_time row0; rec_load := load0;
             rec_inv_power := truncate1 inv_power0;
             rec_inv_percent :=
               truncate1 (if Qlt_bool 0 load0 then (inv_power0 / load0) * 100 else 0);
             rec_lambda := lambda0 |}
            :: later rest lambda0 inv_power0)
  end.

End Recurrence.

End SimpleRecurrence.

(** ** Auxiliary definitions for the further properties *)

Open Scope string_scope.

(** Whether the first [n] characters of [s] all occur in [old]. *)
Fixpoint skipped_in (old : string) (n : nat) (s : string) : bool :=
  match n, s with
  | S k, String d s' => in_set d old && skipped_in old k s'
  | _, _ => true
  end.

(** A character that no step of [parse_k_expression] removes and that the
    character screen rejects: an ASCII character (one byte, below 128) that
    is not an allowed one, not white space, not [^], and not part of either
    spelling of the free variable.  Characters outside ASCII are left out:
    among them are digits and white space that [str.isdigit], [float] and
    [str.strip] accept, which [is_digit] and [is_space] do not tell. *)
Definition foreign (c : ascii) : bool :=
  (nat_of_ascii c <? 128)%nat
  && negb (in_set c allowed_chars) && negb (is_space c)
  && negb (in_set c "^lambda") && negb (in_set c lambda_glyph).

Close Scope string_scope.

Open Scope string_scope.

(** The number a string of digits writes, continuing from [acc]. *)
Fixpoint digits_number (s : string) (acc : Z) : Z :=
  match s with
  | EmptyString => acc
  | String c s' => digits_number s' (10 * acc + digit_value c)%Z
  end.

Close Scope string_scope.

(** ** Concrete library stand-ins for examples *)

Open Scope string_scope.

(** A reader of times of day written [H:M:S], standing in for
    [pd.to_datetime] in examples. *)
Definition clock_of (s : string) : option time_of_day :=
  match split_on ":" s with
  | [h; m; sec] =>
      match py_int h, py_int m, py_int sec with
      | Ok h, Ok m, Ok sec => Some {| hour := h; minute := m; second := sec |}
      | _, _, _ => None
      end
  | _ => None
  end.

Fixpoint clock_reader (column : list string) : option (list time_of_day) :=
  match column with
  | [] => Some []
  | s :: rest =>
      match clock_of s, clock_reader rest with
      | Some t, Some ts => Some (t :: ts)
      | _, _ => None
      end
  end.

Definition row_at (time : string) (l : Q) : LoadRecord :=
  {| timestamp := ""; utc_time := time; device_address := ""; device_type := "";
     load := l |}.

Definition example_frame : list LoadRecord :=
  [row_at "07:59:59" 100; row_at "08:00:00" 100; row_at "08:05:00" 90;
   row_at "08:10:00" 80; row_at "08:10:01" 70].

(** A file that reads with two columns as gbk, fails as gb2312 and reads
    with six columns from utf-8-sig on; a frame is its number of columns
    and the state of the file counts the reads. *)
Definition example_read_csv (enc : string) (reads : nat) : result nat * nat :=
  (if String.eqb enc "gbk" then Ok 2%nat
   else if String.eqb enc "gb2312" then Raise ValueError
   else Ok 6%nat,
   S reads).

Close Scope string_scope.

(** What every record of the older script satisfies against its row. *)
Definition simple_record_ok (row : LoadRecord) (r : SimpleRecurrence.SimpleRecord)
  : Prop :=
  SimpleRecurrence.rec_time r = utc_time row /\
  SimpleRecurrence.rec_load r = load row /\
  (0 <= load row -> 0 <= SimpleRecurrence.rec_inv_power r) /\
  0 <= SimpleRecurrence.rec_inv_percent r /\
  SimpleRecurrence.rec_inv_percent r <= 100.


(** ** The same arithmetic in binary floating point

    The definitions above compute with exact rationals.  Python computes
    with binary64 floats, and [math.floor] is applied to a rounded product:
    this module evaluates [truncate_decimal] and the body of the loop of
    [calculate_inverter_power] on binary64 numbers, operation for operation,
    to tell where the two part.  [x ** 2] is taken as the rounded square
    [x * x]; the gain evaluator enters as a function of the ratio. *)

Module Binary64.

Import PrimFloat.

(** [float(n)] for an integer below 2^53 in magnitude (exact). *)
Definition of_int (n : Z) : float :=
  if (n <? 0)%Z then opp (of_uint63 (Uint63.of_Z (- n)))
  else of_uint63 (Uint63.of_Z n).

(** The literal [n / d] written in decimal, for example [dec 6 10] for
    [0.6]: the float nearest to the quotient. *)
Definition dec (n d : Z) : float := div (of_int n) (of_int d).

(** What stops [math.floor], and the read of the first load. *)
Inductive failure : Type :=
| EmptyFrame      (* IndexError *)
| FloorOfNaN      (* ValueError *)
| FloorOfInfinity (* OverflowError *).

(** [math.floor(x)].  The integer it returns is always a binary64 value
    itself, and is given as such: dividing it by the integer 10 is then the
    binary64 quotient. *)
Definition floor (x : float) : failure + float :=
  match FloatOps.Prim2SF x with
  | SpecFloat.S754_zero _ => inr zero
  | SpecFloat.S754_finite s m (Zneg p) =>
      inr (of_int ((if s then Zneg m else Zpos m) / 2 ^ Zpos p))
  | SpecFloat.S754_finite _ _ _ => inr x
  | SpecFloat.S754_infinity _ => inl FloorOfInfinity
  | SpecFloat.S754_nan => inl FloorOfNaN
  end.

(** The rational number a finite float stands for. *)
Definition to_Q (x : float) : option Q :=
  match FloatOps.Prim2SF x with
  | SpecFloat.S754_zero _ => Some 0%Q
  | SpecFloat.S754_finite s m e =>
      Some (inject_Z (if s then Zneg m else Zpos m) * Qpower 2 e)%Q
  | SpecFloat.S754_infinity _ => None
  | SpecFloat.S754_nan => None
  end.

Definition bind {A B : Type} (x : failure + A) (f : A -> failure + B) : failure + B :=
  match x with
  | inl e => inl e
  | inr a => f a
  end.

(** [truncate_decimal(value)] with the default [decimals=1]. *)
Definition truncate_decimal (value : float) : failure + float :=
  bind (floor (mul value (of_int 10))) (fun n => inr (div n (of_int 10))).

Definition py_min (a b : float) : float := if ltb b a then b else a.
Definition py_max (a b : float) : float := if ltb a b then b else a.

(** The values of one iteration: the fields of the record and the two
    locals [grid_i] and [lam_i]. *)
Record Step : Type := {
  out_load : float;
  inv_curr : float;
  grid_i : float;
  lam_i : float;
  inc_i : float;
  aggressive_i : float;
  ratio_i : float;
  inv_percent_i : float
}.

Section Engine.

(** [parse_k_expression(k_expression, lam)] as a function of [lam]. *)
Variable gain : float -> float.

Definition iteration (load_i inv_in : float) : failure + Step :=
  let inv := py_min (py_max zero inv_in) load_i in
  bind (truncate_decimal inv) (fun inv_curr =>
  bind (truncate_decimal (sub load_i inv_curr)) (fun grid_i =>
  bind (truncate_decimal (if leb load_i zero then zero else div grid_i load_i))
       (fun lam_i =>
  let k_val := gain lam_i in
  bind (truncate_decimal (mul (mul (mul k_val (mul lam_i lam_i)) load_i) one))
       (fun inc_i =>
  bind (truncate_decimal (sub load_i inv_curr)) (fun aggressive_i =>
  bind (if eqb aggressive_i zero
        then inr (if ltb zero inc_i then dec 9999 10 else zero)
        else truncate_decimal (div inc_i aggressive_i)) (fun ratio_i =>
  bind (truncate_decimal
          (if leb load_i zero then zero
           else mul (div inv_curr load_i) (of_int 100))) (fun inv_percent_i =>
  bind (truncate_decimal load_i) (fun out_load =>
  inr {| out_load := out_load; inv_curr := inv_curr; grid_i := grid_i;
         lam_i := lam_i; inc_i := inc_i; aggressive_i := aggressive_i;
         ratio_i := ratio_i; inv_percent_i := inv_percent_i |})))))))).

(** The lookahead clamp. *)
Definition lookahead (inv : float) (rest : list float) : failure + float :=
  match rest with
  | next_load :: _ =>
      if ltb next_load inv then truncate_decimal next_load else inr inv
  | [] => inr inv
  end.

(** The loop over the loads of the frame. *)
Fixpoint loop (loads : list float) (inv : float) : failure + list Step :=
  match loads with
  | [] => inr []
  | load_i :: rest =>
      bind (iteration load_i inv) (fun st =>
      bind (lookahead (add (inv_curr st) (inc_i st)) rest) (fun inv' =>
      bind (loop rest inv') (fun steps => inr (st :: steps))))
  end.

Definition calculate_inverter_power (loads : list float) (initial_inv_power : float)
  : failure + list Step :=
  match loads with
  | [] => inl EmptyFrame
  | first :: _ => loop loads (py_min (py_max zero initial_inv_power) first)
  end.

End Engine.

End Binary64.

(** * Properties *)

(** ** Truncation *)

Lemma truncate1_unfold (v : Q) :
  truncate1 v == inject_Z (Qfloor (v * 10)) / 10.
Proof. reflexivity. Qed.

#[export] Instance truncate1_Proper : Proper (Qeq ==> Qeq) truncate1.
Proof.
  intros a b E. unfold truncate1, truncate_decimal.
  rewrite E. reflexivity.
Qed.

Lemma truncate1_le (v : Q) : truncate1 v <= v.
Proof.
  rewrite truncate1_unfold.
  apply Qle_shift_div_r; [reflexivity|].
  apply Qfloor_le.
Qed.

Lemma truncate1_gt (v : Q) : v - (1 # 10) < truncate1 v.
Proof.
  rewrite truncate1_unfold.
  apply Qlt_shift_div_l; [reflexivity|].
  pose proof (Qlt_floor (v * 10)) as H.
  rewrite inject_Z_plus in H. change (inject_Z 1) with 1 in H.
  set (f := inject_Z (Qfloor (v * 10))) in *.
  lra.
Qed.

Lemma truncate1_mono (a b : Q) : a <= b -> truncate1 a <= truncate1 b.
Proof.
  intros H. rewrite !truncate1_unfold.
  apply Qmult_le_compat_r; [|discriminate].
  rewrite <- Zle_Qle. apply Qfloor_resp_le. lra.
Qed.

Lemma truncate1_tenth (n : Z) : truncate1 (inject_Z n / 10) == inject_Z n / 10.
Proof.
  rewrite truncate1_unfold.
  assert (E : inject_Z n / 10 * 10 == inject_Z n) by (field; discriminate).
  rewrite E, Qfloor_Z. reflexivity.
Qed.

Lemma truncate1_idem (v : Q) : truncate1 (truncate1 v) == truncate1 v.
Proof.
  rewrite (truncate1_unfold v). apply truncate1_tenth.
Qed.

Lemma truncate1_nonneg (v : Q) : 0 <= v -> 0 <= truncate1 v.
Proof.
  intros H. apply truncate1_mono in H.
  assert (E : truncate1 0 == 0) by reflexivity.
  rewrite E in H. exact H.
Qed.

(** A negative value moves away from zero: the floor, not a truncation of
    the digits. *)
Example truncate_negative : truncate_decimal (- (37 # 100)) 1 == - (4 # 10).
Proof. reflexivity. Qed.

(** ** Strings *)

Open Scope string_scope.

Ltac ascii_cases c :=
  destruct c as [[] [] [] [] [] [] [] []]; try reflexivity; try discriminate.

Lemma all_chars_impl (p q : ascii -> bool) (s : string) :
  (forall c, p c = true -> q c = true) ->
  all_chars p s = true -> all_chars q s = true.
Proof.
  intros Hpq. induction s as [|c s IH]; simpl; [reflexivity|].
  intros H. apply andb_true_iff in H as [Hc Hs].
  rewrite (Hpq c Hc), (IH Hs). reflexivity.
Qed.

Lemma in_set_absent (p : ascii -> bool) (d : ascii) (s : string) :
  p d = false -> all_chars p s = true -> in_set d s = false.
Proof.
  intros Hd. induction s as [|c s IH]; simpl; [reflexivity|].
  intros H. apply andb_true_iff in H as [Hc Hs].
  rewrite (IH Hs), orb_false_r.
  destruct (Ascii.eqb d c) eqn:E; [|reflexivity].
  apply Ascii.eqb_eq in E. subst c. congruence.
Qed.

(** Nothing is replaced when the first character of [old] does not occur. *)
Lemma replace_absent (c : ascii) (old' new s : string) :
  in_set c s = false -> replace (String c old') new s = s.
Proof.
  unfold replace. induction s as [|d s IH]; [reflexivity|].
  cbn [in_set]. intros H. apply orb_false_iff in H as [Hd Hs].
  cbn [replace_from prefix].
  destruct (ascii_dec c d) as [->|_].
  - rewrite Ascii.eqb_refl in Hd. discriminate.
  - rewrite (IH Hs). reflexivity.
Qed.

Lemma lstrip_no_space (s : string) :
  all_chars (fun c => negb (is_space c)) s = true -> lstrip s = s.
Proof.
  destruct s as [|c s]; simpl; [reflexivity|].
  intros H. apply andb_true_iff in H as [Hc _].
  apply negb_true_iff in Hc. rewrite Hc. reflexivity.
Qed.

Lemma rstrip_no_space (s : string) :
  all_chars (fun c => negb (is_space c)) s = true -> rstrip s = s.
Proof.
  induction s as [|c s IH]; simpl; [reflexivity|].
  intros H. apply andb_true_iff in H as [Hc Hs].
  apply negb_true_iff in Hc. rewrite (IH Hs), Hc.
  destruct s; reflexivity.
Qed.

Lemma strip_no_space (s : string) :
  all_chars (fun c => negb (is_space c)) s = true -> strip s = s.
Proof.
  intros H. unfold strip. rewrite (lstrip_no_space s H). apply rstrip_no_space, H.
Qed.

Lemma replace_single_empty (c : ascii) (s : string) :
  replace (String c "") "" s = remove_char c s.
Proof.
  unfold replace. induction s as [|d s IH]; [reflexivity|].
  cbn [replace_from prefix remove_char String.length Nat.pred].
  destruct (ascii_dec c d) as [->|Hn].
  - rewrite Ascii.eqb_refl. destruct s; cbn [append]; exact IH.
  - destruct (Ascii.eqb d c) eqn:E.
    + apply Ascii.eqb_eq in E. congruence.
    + rewrite IH. reflexivity.
Qed.

Lemma all_chars_remove (p : ascii -> bool) (c : ascii) (s : string) :
  all_chars p (remove_char c s) = all_chars (fun x => Ascii.eqb x c || p x) s.
Proof.
  induction s as [|d s IH]; simpl; [reflexivity|].
  destruct (Ascii.eqb d c); simpl; rewrite IH; reflexivity.
Qed.

Lemma remove_empty (c : ascii) (s : string) :
  remove_char c s = "" -> all_chars (fun x => Ascii.eqb x c) s = true.
Proof.
  induction s as [|d s IH]; simpl; [reflexivity|].
  destruct (Ascii.eqb d c); [exact IH | discriminate].
Qed.

Lemma isdigit_all (s : string) : isdigit s = true -> all_chars is_digit s = true.
Proof. destruct s; [discriminate | exact (fun H => H)]. Qed.

Lemma pure_number_chars (expr : string) :
  pure_number expr = true -> all_chars sign_point_digit expr = true.
Proof.
  unfold pure_number. rewrite !replace_single_empty. intros H.
  apply isdigit_all in H. rewrite !all_chars_remove in H. exact H.
Qed.

(** An expression of signs, points and digits that is not a pure number has
    no digit at all. *)
Lemma not_pure_number_chars (expr : string) :
  all_chars sign_point_digit expr = true ->
  pure_number expr = false ->
  all_chars sign_point expr = true.
Proof.
  unfold pure_number. rewrite !replace_single_empty. intros Hall Hnot.
  destruct (remove_char "-" (remove_char "." expr)) eqn:E.
  - apply remove_empty in E. rewrite all_chars_remove in E.
    exact E.
  - exfalso. rewrite <- E in Hnot.
    assert (Hd : all_chars is_digit (remove_char "-" (remove_char "." expr)) = true)
      by (rewrite !all_chars_remove; exact Hall).
    rewrite E in Hnot, Hd. simpl in Hnot. simpl in Hd. congruence.
Qed.

Lemma sign_point_digit_allowed (c : ascii) :
  sign_point_digit c = true -> in_set c allowed_chars = true.
Proof. ascii_cases c. Qed.

Lemma sign_point_digit_no_space (c : ascii) :
  sign_point_digit c = true -> negb (is_space c) = true.
Proof. ascii_cases c. Qed.

(** Signs, points and digits pass through the preprocessing unchanged. *)
Lemma preprocess_plain (expr : string) :
  all_chars sign_point_digit expr = true -> preprocess expr = expr.
Proof.
  intros H. unfold preprocess.
  rewrite strip_no_space
    by (revert H; apply all_chars_impl, sign_point_digit_no_space).
  rewrite (replace_absent " " "" "" expr)
    by (apply (in_set_absent sign_point_digit); [reflexivity | exact H]).
  apply replace_absent.
  apply (in_set_absent sign_point_digit); [reflexivity | exact H].
Qed.

(** There is no free variable to replace among signs, points and digits. *)
Lemma substitute_plain (float_repr : Q -> string) (expr : string) (lambda_val : Q) :
  all_chars sign_point_digit expr = true ->
  substitute float_repr expr lambda_val = expr.
Proof.
  intros H. unfold substitute, lambda_glyph.
  rewrite (replace_absent "l" "ambda" _ expr)
    by (apply (in_set_absent sign_point_digit); [reflexivity | exact H]).
  apply replace_absent.
  apply (in_set_absent sign_point_digit); [reflexivity | exact H].
Qed.

Close Scope string_scope.

(** ** The gain evaluator *)

Open Scope string_scope.

Lemma take_digits_none (s : string) :
  all_chars sign_point s = true -> take_digits s = ([], s).
Proof.
  destruct s as [|c s]; [reflexivity|].
  cbn [all_chars take_digits]. intros H. apply andb_true_iff in H as [Hc _].
  assert (Hd : is_digit c = false) by (revert Hc; ascii_cases c).
  rewrite Hd. reflexivity.
Qed.

Lemma scan_number_none (s : string) :
  all_chars sign_point s = true -> scan_number s = None.
Proof.
  intros H. unfold scan_number. rewrite (take_digits_none s H).
  destruct s as [|c s]; [reflexivity|].
  cbn [all_chars] in H. apply andb_true_iff in H as [Hc Hs].
  destruct (Ascii.eqb c ".") eqn:E.
  - apply Ascii.eqb_eq in E. subst c. rewrite (take_digits_none s Hs). reflexivity.
  - revert E Hc. ascii_cases c.
Qed.

(** Signs and points alone give minus signs, or no tokens at all. *)
Lemma tokenize_sign_point (s : string) (toks : list token) :
  all_chars sign_point s = true ->
  tokenize_from 0 s = Some toks -> Forall (eq TMinus) toks.
Proof.
  revert toks. induction s as [|c s IH]; intros toks H.
  - intros [= <-]. constructor.
  - pose proof (scan_number_none _ H) as Hscan.
    cbn [all_chars] in H. apply andb_true_iff in H as [Hc Hs].
    cbn [tokenize_from]. rewrite Hscan.
    destruct (is_digit c || Ascii.eqb c ".")%bool eqn:E1; [discriminate|].
    assert (Ec : c = "-"%char) by (revert E1 Hc; ascii_cases c).
    subst c. cbn.
    destruct (tokenize_from 0 s) as [ts|]; [|discriminate].
    intros [= <-]. constructor; [reflexivity | apply IH; [exact Hs | reflexivity]].
Qed.

Lemma evaluate_minus_only (float_pow : Q -> Q -> option Q) (toks : list token) :
  Forall (eq TMinus) toks ->
  forall ops vals, evaluate float_pow toks true ops vals = None.
Proof.
  induction 1 as [|t toks <- _ IH]; intros ops vals; [reflexivity|].
  cbn [evaluate]. apply IH.
Qed.

(** *** The literals [float] accepts *)

Lemma take_digits_facts (s : string) :
  (match snd (take_digits s) with
   | String c _ => is_digit c = false
   | EmptyString => True
   end) /\
  count_char "." s = count_char "." (snd (take_digits s)) /\
  all_chars digit_or_point s = all_chars digit_or_point (snd (take_digits s)) /\
  has_digit s = nonempty (fst (take_digits s)) || has_digit (snd (take_digits s)).
Proof.
  induction s as [|c s IH]; [repeat split|].
  cbn [take_digits]. destruct (is_digit c) eqn:Ed.
  - destruct (take_digits s) as [ds r]. cbn [fst snd] in *.
    destruct IH as (H1 & H2 & H3 & H4).
    split; [exact H1|]. split; [|split].
    + cbn [count_char]. rewrite <- H2.
      assert (E : Ascii.eqb c "." = false) by (revert Ed; ascii_cases c).
      rewrite E. reflexivity.
    + cbn [all_chars]. unfold digit_or_point at 1. rewrite Ed, H3. reflexivity.
    + cbn [has_digit nonempty]. rewrite Ed. reflexivity.
  - cbn [fst snd]. split; [exact Ed|]. split; [reflexivity|]. split; reflexivity.
Qed.

Lemma take_digits_all (p : ascii -> bool) (s : string) :
  all_chars p s = true -> all_chars p (snd (take_digits s)) = true.
Proof.
  induction s as [|c s IH]; [trivial|].
  cbn [take_digits all_chars]. intros H. apply andb_true_iff in H as [Hc Hs].
  destruct (is_digit c).
  - destruct (take_digits s) as [ds r]. exact (IH Hs).
  - cbn. rewrite Hc, Hs. reflexivity.
Qed.

Lemma nonempty_app {A : Type} (a b : list A) :
  nonempty (a ++ b) = nonempty a || nonempty b.
Proof. destruct a, b; reflexivity. Qed.

Lemma head_cases (c : ascii) :
  sign_point_digit c = true -> is_digit c = false -> c = "."%char \/ c = "-"%char.
Proof.
  intros H1 H2. revert H1 H2.
  destruct c as [[] [] [] [] [] [] [] []]; cbn; intros; try discriminate; auto.
Qed.

Lemma take_exponent_head (c : ascii) (r : string) :
  c = "."%char \/ c = "-"%char -> take_exponent (String c r) = (0%Z, String c r).
Proof. intros [-> | ->]; reflexivity. Qed.

(** Among digits, points and minus signs, [scan_number] reads a whole string
    as one number exactly when it is digits with at most one point and at
    least one digit. *)
Lemma accepts_literal (body : string) :
  all_chars sign_point_digit body = true -> accepts body = unsigned_literal body.
Proof.
  intros Hchars.
  pose proof (take_digits_facts body) as (F1 & F2 & F3 & F4).
  pose proof (take_digits_all _ body Hchars) as F5.
  unfold accepts, scan_number, unsigned_literal.
  rewrite F2, F3, F4.
  destruct (take_digits body) as [ip r1]. cbn [fst snd] in *.
  destruct r1 as [|c r].
  - rewrite app_nil_r. destruct ip; reflexivity.
  - cbn [all_chars] in F5. apply andb_true_iff in F5 as [Hc Hr].
    destruct (head_cases c Hc F1) as [-> | ->].
    + pose proof (take_digits_facts r) as (G1 & G2 & G3 & G4).
      pose proof (take_digits_all _ r Hr) as G5.
      cbn [all_chars count_char has_digit]. rewrite G2, G3, G4.
      destruct (take_digits r) as [fp r2]. cbn [fst snd] in *.
      change (digit_or_point ".") with true. change (is_digit ".") with false.
      change (Ascii.eqb "." ".") with true. cbn [andb orb].
      rewrite orb_assoc, <- nonempty_app.
      destruct r2 as [|c2 r'].
      * destruct (ip ++ fp)%list; reflexivity.
      * cbn [all_chars] in G5. apply andb_true_iff in G5 as [Hc2 Hr'].
        pose proof (head_cases c2 Hc2 G1) as Hh.
        rewrite (take_exponent_head c2 r' Hh).
        destruct Hh as [-> | ->].
        -- destruct (ip ++ fp)%list; cbn; rewrite ?andb_false_r; reflexivity.
        -- destruct (ip ++ fp)%list; cbn; reflexivity.
    + cbn [all_chars]. change (digit_or_point "-") with false. cbn [andb].
      rewrite app_nil_r. destruct ip; reflexivity.
Qed.

Lemma split_sign_minus (s : string) :
  all_chars sign_point_digit s = true -> snd (split_sign s) = strip_minus s.
Proof.
  destruct s as [|c r]; [reflexivity|].
  cbn [all_chars]. intros H. apply andb_true_iff in H as [Hc _].
  revert Hc. ascii_cases c.
Qed.

Lemma strip_minus_chars (s : string) :
  all_chars sign_point_digit s = true ->
  all_chars sign_point_digit (strip_minus s) = true.
Proof.
  destruct s as [|c r]; [trivial|].
  intros H. pose proof H as H'.
  cbn [all_chars] in H. apply andb_true_iff in H as [Hc Hr].
  destruct (Ascii.eqb c "-") eqn:E.
  - apply Ascii.eqb_eq in E. subst c. exact Hr.
  - revert E H'.
    destruct c as [[] [] [] [] [] [] [] []]; intros E H';
      first [discriminate E | exact H'].
Qed.

Lemma py_float_accepts (s : string) :
  py_float s = Raise ValueError <-> accepts (snd (split_sign s)) = false.
Proof.
  unfold py_float, accepts. destruct (split_sign s) as [sign body]. cbn [snd].
  destruct (scan_number body) as [n|]; [|tauto].
  destruct (String.eqb (num_rest n) ""); split; congruence.
Qed.

(** Among digits, points and minus signs, [float] fails exactly on the
    strings that are not decimal literals. *)
Lemma py_float_decimal_literal (s : string) :
  all_chars sign_point_digit s = true ->
  (py_float s = Raise ValueError <-> decimal_literal s = false).
Proof.
  intros H. rewrite py_float_accepts, (split_sign_minus s H).
  rewrite (accepts_literal _ (strip_minus_chars s H)). reflexivity.
Qed.

(** An expression without a digit, a name or a parenthesis has no value. *)
Lemma py_eval_sign_point (float_pow : Q -> Q -> option Q) (s : string) :
  all_chars sign_point s = true -> py_eval float_pow s = None.
Proof.
  intros H. unfold py_eval, tokenize.
  destruct (tokenize_from 0 s) as [toks|] eqn:E; [|reflexivity].
  apply evaluate_minus_only. exact (tokenize_sign_point s toks H E).
Qed.

Section GainProperties.

Variable float_repr : Q -> string.
Variable float_pow : Q -> Q -> option Q.

Let gain := parse_k_expression float_repr float_pow.

(** On the fast path every character is an allowed one, and the
    substitution finds nothing to replace. *)
Lemma pure_number_allowed (expr : string) (lambda_val : Q) :
  pure_number expr = true ->
  all_allowed (substitute float_repr expr lambda_val) = true.
Proof.
  intros H. apply pure_number_chars in H.
  rewrite (substitute_plain float_repr expr lambda_val H).
  revert H. apply all_chars_impl, sign_point_digit_allowed.
Qed.

(** The evaluator of main.py: a gain for every expression and ratio, the
    value of the [try] block when it returns and the default whenever it
    raises; the default for an absent expression; the default whenever a
    character outside the allowed set is left after the substitution; the
    default whenever the evaluation fails. *)
Lemma parse_k_expression_screened (k_str : option string) (lambda_val : Q) :
  (parse_k_expression_try float_repr float_pow k_str lambda_val
     = Ok (gain k_str lambda_val) \/
   (exists e, parse_k_expression_try float_repr float_pow k_str lambda_val = Raise e)
     /\ gain k_str lambda_val = default_k) /\
  (k_str = None -> gain k_str lambda_val = default_k) /\
  (forall k, k_str = Some k ->
     all_allowed (substitute float_repr (preprocess k) lambda_val) = false ->
     gain k_str lambda_val = default_k) /\
  (forall k, k_str = Some k ->
     pure_number (preprocess k) = false ->
     py_eval float_pow (substitute float_repr (preprocess k) lambda_val) = None ->
     gain k_str lambda_val = default_k) /\
  (forall k e, k_str = Some k ->
     pure_number (preprocess k) = true ->
     py_float (preprocess k) = Raise e ->
     gain k_str lambda_val = default_k).
Proof.
  subst gain. unfold parse_k_expression.
  split; [|split; [|split; [|split]]].
  - destruct (parse_k_expression_try float_repr float_pow k_str lambda_val) as [v|e].
    + left. reflexivity.
    + right. split; [exists e|]; reflexivity.
  - intros ->. reflexivity.
  - intros k -> Hbad. cbn [parse_k_expression_try].
    destruct (pure_number (preprocess k)) eqn:Hp.
    + rewrite (pure_number_allowed _ lambda_val Hp) in Hbad. discriminate.
    + rewrite Hbad. reflexivity.
  - intros k -> Hp Hev. cbn [parse_k_expression_try]. rewrite Hp, Hev.
    destruct (negb _); reflexivity.
  - intros k e -> Hp Hf. cbn [parse_k_expression_try]. rewrite Hp, Hf. reflexivity.
Qed.

End GainProperties.

Close Scope string_scope.

Open Scope string_scope.

(** The evaluator of simple_analysis.py does fall back to the default when
    the evaluation raises, and on an absent expression. *)
Lemma simple_parse_k_expression_fallback
      (float_repr : Q -> string) (eval_globals : string -> option Q)
      (k_str : option string) (lambda_val : Q) :
  (exists e, SimpleAnalysis.parse_k_expression_try float_repr eval_globals
               k_str lambda_val = Raise e) ->
  SimpleAnalysis.parse_k_expression float_repr eval_globals k_str lambda_val
    = default_k.
Proof.
  intros [e He]. unfold SimpleAnalysis.parse_k_expression. rewrite He. reflexivity.
Qed.

(** C5: the evaluator of simple_analysis.py has no character screen: on
    ["abs(-2)"], which holds characters outside the allowed set, it returns
    whatever the unrestricted [eval] computes (2 under the builtins) and
    falls back to 0.01 only when that raises, while the evaluator of main.py
    returns the default on the same input. *)
Theorem simple_parse_k_expression_unscreened
        (float_repr : Q -> string) (float_pow : Q -> Q -> option Q)
        (eval_globals : string -> option Q) (lambda_val : Q) :
  all_allowed "abs(-2)" = false /\
  SimpleAnalysis.parse_k_expression float_repr eval_globals (Some "abs(-2)") lambda_val
    = match eval_globals "abs(-2)" with Some v => v | None => default_k end /\
  parse_k_expression float_repr float_pow (Some "abs(-2)") lambda_val = default_k.
Proof.
  split; [reflexivity|]. split; [|reflexivity].
  unfold SimpleAnalysis.parse_k_expression, SimpleAnalysis.parse_k_expression_try.
  change (replace lambda_glyph (float_repr lambda_val) (replace " " "" "abs(-2)"))
    with "abs(-2)".
  destruct (eval_globals "abs(-2)"); reflexivity.
Qed.

(** With an interpreter that knows [abs], the unscreened evaluator answers 2. *)
Example simple_parse_k_expression_abs :
  SimpleAnalysis.parse_k_expression repr_tenths
    (fun s => if String.eqb s "abs(-2)" then Some 2%Q else None)
    (Some "abs(-2)") (1 # 2) = 2%Q.
Proof. reflexivity. Qed.

(** C6, as stated, fails: the name [ratio] is not a spelling of the free
    variable, so ["0.01*ratio^2"] is rejected by the character screen and
    the result at 0.5 is the default 0.01, not 0.0025. *)
Lemma gain_examples_counterexample :
  ~ (parse_k_expression repr_tenths no_float_pow (Some "not_a_formula!!") (1 # 2)
       == 1 # 100 /\
     (forall r, parse_k_expression repr_tenths no_float_pow (Some "0.02") r == 2 # 100) /\
     parse_k_expression repr_tenths no_float_pow (Some "0.01*ratio^2") (1 # 2)
       == 25 # 10000)%Q.
Proof.
  intros (_ & _ & H).
  change (parse_k_expression repr_tenths no_float_pow (Some "0.01*ratio^2") (1 # 2))
    with default_k in H.
  discriminate H.
Qed.

(** C6, amended: ["not_a_formula!!"] gives 0.01 at 0.5; ["0.02"] gives 0.02
    at every ratio; the free variable is spelled [lambda] or with the glyph,
    and when [str(0.5)] is ["0.5"] both ["0.01*lambda^2"] and the glyph form
    give 0.0025 at 0.5, [^] read as a power and nothing truncated; with the
    name [ratio] the result is the default 0.01. *)
Theorem gain_examples
        (float_repr : Q -> string) (float_pow : Q -> Q -> option Q)
        (Hrepr : float_repr (1 # 2) = "0.5") :
  (parse_k_expression float_repr float_pow (Some "not_a_formula!!") (1 # 2) == 1 # 100 /\
   (forall r, parse_k_expression float_repr float_pow (Some "0.02") r == 2 # 100) /\
   parse_k_expression float_repr float_pow (Some "0.01*lambda^2") (1 # 2) == 25 # 10000 /\
   parse_k_expression float_repr float_pow
     (Some ("0.01*" ++ lambda_glyph ++ "^2")) (1 # 2) == 25 # 10000 /\
   parse_k_expression float_repr float_pow (Some "0.01*ratio^2") (1 # 2) == 1 # 100)%Q.
Proof.
  split; [reflexivity|]. split; [intros r; reflexivity|].
  assert (Hsafe : lam_safe (1 # 2) = (1 # 2)%Q) by reflexivity.
  split; [|split; [|reflexivity]].
  - unfold parse_k_expression, parse_k_expression_try.
    change (preprocess "0.01*lambda^2") with "0.01*lambda**2".
    change (pure_number "0.01*lambda**2") with false. cbv iota.
    unfold substitute. rewrite Hsafe, Hrepr. reflexivity.
  - unfold parse_k_expression, parse_k_expression_try.
    change (preprocess ("0.01*" ++ lambda_glyph ++ "^2"))
      with ("0.01*" ++ lambda_glyph ++ "**2").
    change (pure_number ("0.01*" ++ lambda_glyph ++ "**2")) with false. cbv iota.
    unfold substitute. rewrite Hsafe, Hrepr. reflexivity.
Qed.

(** Witness for C6: [repr_tenths] prints 0.5 as ["0.5"]. *)
Lemma gain_examples_witness :
  (parse_k_expression repr_tenths no_float_pow (Some "not_a_formula!!") (1 # 2) == 1 # 100 /\
   (forall r, parse_k_expression repr_tenths no_float_pow (Some "0.02") r == 2 # 100) /\
   parse_k_expression repr_tenths no_float_pow (Some "0.01*lambda^2") (1 # 2) == 25 # 10000 /\
   parse_k_expression repr_tenths no_float_pow
     (Some ("0.01*" ++ lambda_glyph ++ "^2")) (1 # 2) == 25 # 10000 /\
   parse_k_expression repr_tenths no_float_pow (Some "0.01*ratio^2") (1 # 2) == 1 # 100)%Q.
Proof.
  apply (gain_examples repr_tenths no_float_pow). reflexivity.
Defined.

(** C10: an expression made of digits, points and minus signs only that
    is not a decimal literal (an optional leading minus sign, digits with at
    most one point, at least one digit) gives the default 0.01 at every
    ratio: with a digit in it, it takes the fast path, where [float] fails
    and the failure is caught; without one it has no value.  So ["3-1"],
    which as arithmetic is 2, and ["1.2.3"] both give 0.01. *)
Theorem malformed_literal_default
        (float_repr : Q -> string) (float_pow : Q -> Q -> option Q)
        (expr : string) (lambda_val : Q)
        (Hchars : all_chars sign_point_digit expr = true)
        (Hbad : decimal_literal expr = false) :
  parse_k_expression float_repr float_pow (Some expr) lambda_val = default_k.
Proof.
  apply (py_float_decimal_literal expr Hchars) in Hbad.
  unfold parse_k_expression, parse_k_expression_try.
  rewrite (preprocess_plain expr Hchars).
  destruct (pure_number expr) eqn:Hp.
  - rewrite Hbad. reflexivity.
  - rewrite (substitute_plain float_repr expr lambda_val Hchars).
    rewrite (py_eval_sign_point float_pow expr (not_pure_number_chars expr Hchars Hp)).
    destruct (negb _); reflexivity.
Qed.

(** Witness for C10: ["3-1"]. *)
Lemma malformed_literal_default_witness :
  parse_k_expression repr_tenths no_float_pow (Some "3-1") 0 = default_k.
Proof.
  apply (malformed_literal_default repr_tenths no_float_pow "3-1" 0).
  - reflexivity.
  - reflexivity.
Defined.

(** The two examples step by step, and what is lost: both take the fast
    path, [float] fails on both, and as arithmetic ["3-1"] is 2. *)
Example malformed_literal_examples :
  forall float_repr float_pow lambda_val,
    parse_k_expression float_repr float_pow (Some "3-1") lambda_val = default_k /\
    parse_k_expression float_repr float_pow (Some "1.2.3") lambda_val = default_k /\
    parse_k_expression float_repr float_pow (Some "-") lambda_val = default_k /\
    pure_number "3-1" = true /\
    pure_number "1.2.3" = true /\
    py_float "3-1" = Raise ValueError /\
    py_float "1.2.3" = Raise ValueError /\
    py_eval float_pow "3-1" = Some (3 - 1)%Q.
Proof. intros. repeat split. Qed.

(** A decimal literal, for comparison, is read by [float]: ["-0.5"] gives
    -0.5 at every ratio. *)
Example literal_fast_path :
  forall float_repr float_pow lambda_val,
    decimal_literal "-0.5" = true /\
    (parse_k_expression float_repr float_pow (Some "-0.5") lambda_val == - (1 # 2))%Q.
Proof. intros. split; reflexivity. Qed.

Close Scope string_scope.

(** ** The recurrence engine *)

Lemma Qlt_bool_iff (a b : Q) : Qlt_bool a b = true <-> a < b.
Proof.
  unfold Qlt_bool. rewrite negb_true_iff, <- not_true_iff_false, Qle_bool_iff.
  split; [apply Qnot_le_lt | apply Qlt_not_le].
Qed.

Lemma Qlt_bool_false (a b : Q) : Qlt_bool a b = false <-> b <= a.
Proof.
  unfold Qlt_bool. rewrite negb_false_iff. apply Qle_bool_iff.
Qed.


Lemma Qeq_bool_false (a b : Q) : Qeq_bool a b = false <-> ~ a == b.
Proof. rewrite <- not_true_iff_false, Qeq_bool_iff. reflexivity. Qed.

(** Truncation forgets how its argument is written. *)
Lemma truncate1_ext (a b : Q) : a == b -> truncate1 a = truncate1 b.
Proof.
  intros E. unfold truncate1, truncate_decimal.
  assert (F : Qfloor (a * inject_Z (10 ^ Z.of_nat 1))
              = Qfloor (b * inject_Z (10 ^ Z.of_nat 1))) by (rewrite E; reflexivity).
  rewrite F. reflexivity.
Qed.

(** Two truncated values that are equal as numbers are written alike. *)
Lemma truncate1_canonical (a b : Q) :
  truncate1 a == truncate1 b -> truncate1 a = truncate1 b.
Proof.
  unfold truncate1, truncate_decimal.
  set (za := Qfloor _). set (zb := Qfloor _). clearbody za zb. intros H.
  assert (E : za = zb) by (unfold Qeq in H; cbn in H; lia).
  rewrite E. reflexivity.
Qed.

Lemma truncate1_idem_eq (v : Q) : truncate1 (truncate1 v) = truncate1 v.
Proof. apply truncate1_canonical, truncate1_idem. Qed.

(** Case analysis on a clamp [min(max(0, a), l)]. *)
Ltac clamp_cases a l :=
  let x := fresh "x" in
  let y := fresh "y" in
  let Hx := fresh "Hx" in
  let Hy := fresh "Hy" in
  pose proof (Q.max_spec 0 a) as Hx;
  pose proof (Q.min_spec (Qmax 0 a) l) as Hy;
  unfold py_min, py_max in *;
  set (y := Qmin (Qmax 0 a) l) in *;
  set (x := Qmax 0 a) in *;
  clearbody y x.

Lemma clamp_le (a l : Q) : py_min (py_max 0 a) l <= l.
Proof. clamp_cases a l. lra. Qed.

Lemma clamp_nonneg (a l : Q) : 0 <= l -> 0 <= py_min (py_max 0 a) l.
Proof. intros Hl. clamp_cases a l. lra. Qed.

Lemma entry_le_truncated (l inv : Q) : entry l inv <= truncate1 l.
Proof. apply truncate1_mono, clamp_le. Qed.

Lemma entry_le (l inv : Q) : entry l inv <= l.
Proof.
  apply Qle_trans with (truncate1 l); [apply entry_le_truncated | apply truncate1_le].
Qed.

Lemma entry_nonneg (l inv : Q) : 0 <= l -> 0 <= entry l inv.
Proof. intros Hl. apply truncate1_nonneg, clamp_nonneg, Hl. Qed.

(** A property of pairs carries over to the emitted records. *)
Lemma Forall2_map_r {A B C : Type} (P : A -> C -> Prop) (f : B -> C)
      (l : list A) (l' : list B) :
  Forall2 (fun a b => P a (f b)) l l' -> Forall2 P l (map f l').
Proof. induction 1; cbn; constructor; assumption. Qed.

Section EngineProperties.

Variable float_repr : Q -> string.
Variable float_pow : Q -> Q -> option Q.
Variable k_expression : option string.

Let step_of := iteration float_repr float_pow k_expression.
Let run := loop float_repr float_pow k_expression.
Let calculate := calculate_inverter_power float_repr float_pow k_expression.

Lemma iteration_inv_curr (row : LoadRecord) (inv : Q) :
  inv_curr (step_of row inv) = entry (load row) inv.
Proof. reflexivity. Qed.

Lemma iteration_row (row : LoadRecord) (inv : Q) :
  step_row (step_of row inv) = row.
Proof. reflexivity. Qed.

(** An iteration depends on the carried value through the entry clamp only. *)
Lemma iteration_entry (row : LoadRecord) (a b : Q) :
  entry (load row) a = entry (load row) b -> step_of row a = step_of row b.
Proof.
  unfold entry. intros E. subst step_of. unfold iteration.
  cbv zeta. rewrite E. reflexivity.
Qed.

(** What holds of every iteration holds of every step of the loop, row by
    row. *)
Lemma loop_Forall2 (P : LoadRecord -> Step -> Prop) :
  (forall row inv, P row (step_of row inv)) ->
  forall rows inv, Forall2 P rows (run rows inv).
Proof.
  intros HP. induction rows as [|row rest IH]; intros inv.
  - constructor.
  - cbn. constructor; [apply HP | apply IH].
Qed.

Lemma calculate_Forall2 (P : LoadRecord -> OutputRecord -> Prop) :
  (forall row inv, P row (emit (step_of row inv))) ->
  forall df init records,
    calculate df init = Ok records -> Forall2 P df records.
Proof.
  intros HP df init records.
  subst calculate.
  unfold calculate_inverter_power, trace, initial_state.
  destruct df as [|first rest]; [discriminate|].
  intros [= <-].
  apply (Forall2_map_r P emit (first :: rest)
           (run (first :: rest) (py_min (py_max 0 init) (load first)))).
  apply (loop_Forall2 (fun row st => P row (emit st)) HP).
Qed.

End EngineProperties.

Open Scope string_scope.

(** C1: the end-to-end scenario.  For loads 100.0, 90.0, 80.0, an initial
    inverter power of 10.0 and the gain expression ["0.01"], step 0 has
    inverter output 10.0, grid draw 90.0, ratio 0.9, adjustment
    truncate(0.01 * 0.81 * 100) = 0.8, aggressive adjustment 90.0 and
    adjustment ratio truncate(0.8 / 90.0) = 0.0; the value carried into
    step 1 is 10.8, which the lookahead clamp leaves alone as it is not
    above 90.0; at step 1 the entry clamp yields 10.8 and the grid draw is
    truncate(90 - 10.8) = 79.2.  The emitted records are those of the steps. *)
Theorem end_to_end_scenario
        (float_repr : Q -> string) (float_pow : Q -> Q -> option Q)
        (r0 r1 r2 : LoadRecord) :
  let df := [with_load r0 100; with_load r1 90; with_load r2 80] in
  exists s0 s1 s2,
    trace float_repr float_pow (Some "0.01") df 10 = Ok [s0; s1; s2] /\
    calculate_inverter_power float_repr float_pow (Some "0.01") df 10
      = Ok [emit s0; emit s1; emit s2] /\
    (inv_curr s0 == 10 /\ grid_i s0 == 90 /\ lam_i s0 == 9 # 10 /\
     inc_i s0 == truncate1 ((1 # 100) * (81 # 100) * 100) /\ inc_i s0 == 8 # 10 /\
     aggressive_i s0 == 90 /\
     ratio_i s0 == truncate1 ((8 # 10) / 90) /\ ratio_i s0 == 0) /\
    (inverter_output (emit s0) == 10 /\ adjustment (emit s0) == 8 # 10 /\
     aggressive_adjustment (emit s0) == 90 /\ adjustment_ratio (emit s0) == 0) /\
    (carry s0 == 108 # 10 /\ carry s0 <= 90 /\
     lookahead (carry s0) [with_load r1 90; with_load r2 80] = carry s0) /\
    (py_min (py_max 0 (carry s0)) 90 == 108 # 10 /\
     inv_curr s1 == 108 # 10 /\
     grid_i s1 == truncate1 (90 - (108 # 10)) /\ grid_i s1 == 792 # 10).
Proof.
  intros df.
  exists (iteration float_repr float_pow (Some "0.01") (with_load r0 100) 10).
  exists (iteration float_repr float_pow (Some "0.01") (with_load r1 90) (108 # 10)).
  eexists.
  split; [reflexivity|]. split; [reflexivity|].
  repeat split; try reflexivity; discriminate.
Qed.

(** C2, as stated, fails on a negative load: for the single load -5.0 the
    clamp [min(max(0, inv), load)] yields the load itself, and the emitted
    inverter output is -5.0, below zero. *)
Lemma clamp_invariant_counterexample :
  exists r,
    calculate_inverter_power repr_tenths no_float_pow (Some "0.01")
      [row_of_load (-5)] 0 = Ok [r] /\
    ~ (0 <= inverter_output r /\ inverter_output r <= load (row_of_load (-5))).
Proof.
  eexists. split; [reflexivity|].
  intros [H _]. revert H. apply Qlt_not_le. reflexivity.
Qed.

(** C2, amended: for every load sequence, initial power and gain
    expression, every emitted inverter output is at most the emitted load
    (the load of its row as [truncate_decimal] gives it), and it is at least
    zero whenever the load of its row is at least zero. *)
Theorem clamp_invariant
        (float_repr : Q -> string) (float_pow : Q -> Q -> option Q)
        (k_expression : option string)
        (df : list LoadRecord) (initial_inv_power : Q) (records : list OutputRecord)
        (Hrun : calculate_inverter_power float_repr float_pow k_expression
                  df initial_inv_power = Ok records) :
  Forall2 (fun row r =>
             inverter_output r <= out_load r /\
             (0 <= load row -> 0 <= inverter_output r))
          df records.
Proof.
  revert df initial_inv_power records Hrun. apply calculate_Forall2.
  intros row inv. cbn [emit inverter_output out_load].
  rewrite iteration_row, iteration_inv_curr.
  split; [apply entry_le_truncated | apply entry_nonneg].
Qed.

(** Witness for C2: the loads 100.0, 90.0, 80.0 from an initial power of 10.0. *)
Lemma clamp_invariant_witness :
  Forall2 (fun row r =>
             inverter_output r <= out_load r /\
             (0 <= load row -> 0 <= inverter_output r))
          (map row_of_load [100; 90; 80])
          (map emit (loop repr_tenths no_float_pow (Some "0.01")
                          (map row_of_load [100; 90; 80]) 10)).
Proof.
  apply (clamp_invariant repr_tenths no_float_pow (Some "0.01")
           (map row_of_load [100; 90; 80]) 10).
  reflexivity.
Defined.

(** C3, as stated, fails: on an empty frame the error is not a dedicated
    [EmptyInputError]. *)
Lemma empty_input_counterexample :
  calculate_inverter_power repr_tenths no_float_pow (Some "0.01") [] 10
    <> Raise (UserError "EmptyInputError").
Proof. discriminate. Qed.

(** C3, amended: called with an empty load sequence, the engine fails with
    the [IndexError] of reading the first load, which reaches the caller; it
    returns no result. *)
Theorem empty_input_error
        (float_repr : Q -> string) (float_pow : Q -> Q -> option Q)
        (k_expression : option string) (initial_inv_power : Q) :
  calculate_inverter_power float_repr float_pow k_expression [] initial_inv_power
    = Raise IndexError /\
  (forall records,
      calculate_inverter_power float_repr float_pow k_expression [] initial_inv_power
        <> Ok records) /\
  (forall df records,
      calculate_inverter_power float_repr float_pow k_expression df initial_inv_power
        = Ok records -> df <> [] /\ List.length records = List.length df).
Proof.
  split; [reflexivity|]. split; [discriminate|].
  intros df records H.
  split; [intros ->; discriminate|].
  symmetry. apply (Forall2_length (R := fun _ _ => True)).
  revert H. apply calculate_Forall2. trivial.
Qed.

Close Scope string_scope.

(** The sentinel branch is never taken by the engine: the aggressive
    adjustment is the grid draw, and a zero grid draw makes the ratio, hence
    the adjustment, zero. *)
Lemma zero_gap_zero_adjustment
      (float_repr : Q -> string) (float_pow : Q -> Q -> option Q)
      (k_expression : option string) (row : LoadRecord) (inv : Q) :
  let st := iteration float_repr float_pow k_expression row inv in
  aggressive_i st == 0 -> inc_i st == 0.
Proof.
  unfold iteration. cbv zeta. cbn [aggressive_i inc_i].
  set (g := truncate1 (load row - _)). intros Hg.
  assert (Hlam : truncate1 (if Qle_bool (load row) 0 then 0 else g / load row) = truncate1 0).
  { apply truncate1_ext. destruct (Qle_bool (load row) 0); [reflexivity|].
    rewrite Hg. unfold Qdiv. ring. }
  rewrite Hlam.
  set (k := parse_k_expression _ _ _ _).
  assert (E : k * truncate1 0 ^ 2 * load row * 1 == 0)
    by (change (truncate1 0 ^ 2) with (0 # 100); ring).
  rewrite (truncate1_ext _ _ E). reflexivity.
Qed.

(** ** The lookahead clamp *)

(** Once the carried value exceeds the next load, clamping it down to the
    truncated next load or leaving it to the entry clamp gives the same
    state after that entry clamp. *)
Lemma lookahead_entry (next_load inv : Q) :
  entry next_load (if Qlt_bool next_load inv then truncate1 next_load else inv)
  = entry next_load inv.
Proof.
  destruct (Qlt_bool next_load inv) eqn:E; [|reflexivity].
  apply Qlt_bool_iff in E.
  unfold entry.
  assert (R : py_min (py_max 0 inv) next_load == next_load)
    by (clamp_cases inv next_load; lra).
  rewrite (truncate1_ext _ _ R).
  destruct (Qlt_le_dec next_load 0) as [Hneg|Hpos].
  - apply truncate1_ext.
    pose proof (truncate1_le next_load).
    clamp_cases (truncate1 next_load) next_load. lra.
  - assert (L : py_min (py_max 0 (truncate1 next_load)) next_load
                == truncate1 next_load).
    { pose proof (truncate1_le next_load).
      pose proof (truncate1_nonneg next_load Hpos).
      clamp_cases (truncate1 next_load) next_load. lra. }
    rewrite (truncate1_ext _ _ L). apply truncate1_idem_eq.
Qed.

Section Lookahead.

Variable float_repr : Q -> string.
Variable float_pow : Q -> Q -> option Q.
Variable k_expression : option string.

Let run := loop float_repr float_pow k_expression.
Let run_entry_only := loop_entry_clamp_only float_repr float_pow k_expression.

(** Two carried values that the entry clamp of the first row identifies
    give the same steps, with or without the lookahead clamp. *)
Lemma loop_entry_clamp_only_eq (rows : list LoadRecord) :
  forall a b,
    match rows with
    | row :: _ => entry (load row) a = entry (load row) b
    | [] => True
    end ->
    run rows a = run_entry_only rows b.
Proof.
  subst run run_entry_only.
  induction rows as [|row rest IH]; intros a b H; [reflexivity|].
  cbn [loop loop_entry_clamp_only].
  rewrite (iteration_entry float_repr float_pow k_expression row a b H).
  f_equal. apply IH.
  destruct rest as [|next rest']; [exact I|].
  cbn [lookahead]. apply lookahead_entry.
Qed.

End Lookahead.

(** C8: the lookahead clamp changes nothing.  For every load sequence,
    initial power and gain expression, the engine with the lookahead clamp
    and the variant that leaves the carried value to the next entry clamp
    return the same result, record for record (and both fail alike on an
    empty sequence). *)
Theorem lookahead_clamp_redundant
        (float_repr : Q -> string) (float_pow : Q -> Q -> option Q)
        (k_expression : option string)
        (df : list LoadRecord) (initial_inv_power : Q) :
  calculate_inverter_power float_repr float_pow k_expression df initial_inv_power
  = calculate_entry_clamp_only float_repr float_pow k_expression df initial_inv_power.
Proof.
  unfold calculate_inverter_power, calculate_entry_clamp_only, trace.
  destruct (initial_state df initial_inv_power) as [inv|e]; [|reflexivity].
  rewrite (loop_entry_clamp_only_eq float_repr float_pow k_expression df inv inv).
  - reflexivity.
  - destruct df; [exact I | reflexivity].
Qed.

(** The lookahead clamp does fire: with loads 100.0 then 5.0 and the gain 1
    the carried value 10.0 + 81.0 exceeds 5.0 and is cut to 5.0 before the
    next iteration, whose entry clamp would have cut it to the same value. *)
Example lookahead_clamp_fires :
  let st := iteration repr_tenths no_float_pow (Some "1"%string) (row_of_load 100) 10 in
  carry st == 91 /\
  lookahead (carry st) [row_of_load 5] == 5 /\
  entry 5 (carry st) == 5.
Proof. intros st. split; [reflexivity | split; reflexivity]. Qed.

(** * Further properties of the code *)

(** ** More on the recurrence engine *)

Lemma truncate1_small (x : Q) : 0 <= x -> x < 1 # 10 -> truncate1 x == 0.
Proof.
  intros H0 H1.
  assert (E : Qfloor (x * 10) = 0%Z).
  { apply Z.le_antisymm.
    - apply Z.lt_succ_r.
      rewrite Zlt_Qlt. apply Qle_lt_trans with (x * 10); [apply Qfloor_le|].
      change (inject_Z (Z.succ 0)) with 1. lra.
    - change 0%Z with (Qfloor 0). apply Qfloor_resp_le. lra. }
  rewrite truncate1_unfold, E. reflexivity.
Qed.

(** The gap left after a truncation truncates to nothing. *)
Lemma truncate1_gap (l : Q) : truncate1 (l - truncate1 l) == 0.
Proof.
  pose proof (truncate1_le l). pose proof (truncate1_gt l).
  apply truncate1_small; lra.
Qed.

Lemma entry_nonpositive_load (l inv : Q) : l <= 0 -> entry l inv = truncate1 l.
Proof.
  intros Hl. unfold entry. apply truncate1_ext.
  clamp_cases inv l. lra.
Qed.

(** X2: the engine emits one record per row, in the order of the rows; each
    record carries the four passthrough columns of its row unchanged. *)
Theorem records_follow_rows
        (float_repr : Q -> string) (float_pow : Q -> Q -> option Q)
        (k_expression : option string)
        (df : list LoadRecord) (initial_inv_power : Q) (records : list OutputRecord)
        (Hrun : calculate_inverter_power float_repr float_pow k_expression
                  df initial_inv_power = Ok records) :
  List.length records = List.length df /\
  Forall2 (fun row r =>
             out_timestamp r = timestamp row /\
             out_utc_time r = utc_time row /\
             out_device_address r = device_address row /\
             out_device_type r = device_type row)
          df records.
Proof.
  assert (H : Forall2 (fun row r =>
             out_timestamp r = timestamp row /\
             out_utc_time r = utc_time row /\
             out_device_address r = device_address row /\
             out_device_type r = device_type row) df records).
  { revert df initial_inv_power records Hrun. apply calculate_Forall2.
    intros row inv. cbn. repeat split. }
  split; [symmetry; exact (Forall2_length H) | exact H].
Qed.

(** Witness for X2. *)
Lemma records_follow_rows_witness :
  List.length (map emit (loop repr_tenths no_float_pow (Some "0.01"%string)
                              (map row_of_load [100; 90; 80]) 10)) = 3%nat /\
  Forall2 (fun row r =>
             out_timestamp r = timestamp row /\
             out_utc_time r = utc_time row /\
             out_device_address r = device_address row /\
             out_device_type r = device_type row)
          (map row_of_load [100; 90; 80])
          (map emit (loop repr_tenths no_float_pow (Some "0.01"%string)
                          (map row_of_load [100; 90; 80]) 10)).
Proof.
  apply (records_follow_rows repr_tenths no_float_pow (Some "0.01"%string)
           (map row_of_load [100; 90; 80]) 10).
  reflexivity.
Defined.

(** X4: the sentinel 999.9 is never emitted for a closed gap: in every
    record whose aggressive adjustment is zero, the adjustment and the
    adjustment ratio are zero too. *)
Theorem closed_gap_no_adjustment
        (float_repr : Q -> string) (float_pow : Q -> Q -> option Q)
        (k_expression : option string)
        (df : list LoadRecord) (initial_inv_power : Q) (records : list OutputRecord)
        (Hrun : calculate_inverter_power float_repr float_pow k_expression
                  df initial_inv_power = Ok records) :
  Forall (fun r =>
            aggressive_adjustment r == 0 ->
            adjustment r == 0 /\ adjustment_ratio r == 0)
         records.
Proof.
  assert (H : Forall2 (fun (_ : LoadRecord) r =>
            aggressive_adjustment r == 0 ->
            adjustment r == 0 /\ adjustment_ratio r == 0) df records).
  { revert df initial_inv_power records Hrun. apply calculate_Forall2.
    intros row inv Hagg.
    pose proof (zero_gap_zero_adjustment float_repr float_pow k_expression
                  row inv Hagg) as Hinc.
    cbn [emit aggressive_adjustment adjustment adjustment_ratio] in *.
    split; [exact Hinc|].
    unfold iteration in *. cbv zeta in *.
    cbn [aggressive_i inc_i ratio_i] in *.
    set (agg := truncate1 (load row - _)) in *.
    set (inc := truncate1 (_ * load row * 1)) in *.
    apply Qeq_bool_iff in Hagg. rewrite Hagg.
    assert (Hlt : Qlt_bool 0 inc = false) by (apply Qlt_bool_false; lra).
    rewrite Hlt. reflexivity. }
  clear Hrun. induction H; constructor; assumption.
Qed.

(** Witness for X4: the first load is met exactly. *)
Lemma closed_gap_no_adjustment_witness :
  Forall (fun r =>
            aggressive_adjustment r == 0 ->
            adjustment r == 0 /\ adjustment_ratio r == 0)
         (map emit (loop repr_tenths no_float_pow (Some "0.01"%string)
                         (map row_of_load [5; 100]) 5)).
Proof.
  apply (closed_gap_no_adjustment repr_tenths no_float_pow (Some "0.01"%string)
           (map row_of_load [5; 100]) 50).
  reflexivity.
Defined.

(** X5: a row whose load is zero or negative gives a record whose inverter
    output is the emitted load and whose percentage, adjustment and
    adjustment ratio are all zero: the ratio of the row is taken as zero
    without a division by the load, and the inverter output is what the
    clamp makes of the load alone. *)
Theorem nonpositive_load_record
        (float_repr : Q -> string) (float_pow : Q -> Q -> option Q)
        (k_expression : option string)
        (df : list LoadRecord) (initial_inv_power : Q) (records : list OutputRecord)
        (Hrun : calculate_inverter_power float_repr float_pow k_expression
                  df initial_inv_power = Ok records) :
  Forall2 (fun row r =>
             load row <= 0 ->
             inverter_output r = out_load r /\
             inverter_output_percent r == 0 /\
             adjustment r == 0 /\
             adjustment_ratio r == 0)
          df records.
Proof.
  revert df initial_inv_power records Hrun. apply calculate_Forall2.
  intros row inv Hl.
  assert (Hagg : aggressive_i (iteration float_repr float_pow k_expression row inv) == 0).
  { unfold iteration. cbv zeta. cbn [aggressive_i].
    fold (entry (load row) inv). rewrite (entry_nonpositive_load _ inv Hl).
    apply truncate1_gap. }
  pose proof (zero_gap_zero_adjustment float_repr float_pow k_expression
                row inv Hagg) as Hinc.
  cbn [emit inverter_output out_load inverter_output_percent
       aggressive_adjustment adjustment adjustment_ratio].
  rewrite iteration_row, iteration_inv_curr.
  split; [apply entry_nonpositive_load, Hl|].
  split.
  { unfold iteration. cbv zeta. cbn [inv_percent_i].
    assert (Hb : Qle_bool (load row) 0 = true) by (apply Qle_bool_iff, Hl).
    rewrite Hb. reflexivity. }
  split; [exact Hinc|].
  unfold iteration in *. cbv zeta in *. cbn [aggressive_i inc_i ratio_i] in *.
  set (agg := truncate1 (load row - _)) in *.
  set (inc := truncate1 (_ * load row * 1)) in *.
  apply Qeq_bool_iff in Hagg. rewrite Hagg.
  assert (Hlt : Qlt_bool 0 inc = false) by (apply Qlt_bool_false; lra).
  rewrite Hlt. reflexivity.
Qed.

(** Witness for X5: a zero load and a negative one. *)
Lemma nonpositive_load_record_witness :
  Forall2 (fun row r =>
             load row <= 0 ->
             inverter_output r = out_load r /\
             inverter_output_percent r == 0 /\
             adjustment r == 0 /\
             adjustment_ratio r == 0)
          (map row_of_load [0; - (37 # 100); 80])
          (map emit (loop repr_tenths no_float_pow (Some "0.01"%string)
                          (map row_of_load [0; - (37 # 100); 80]) 0)).
Proof.
  apply (nonpositive_load_record repr_tenths no_float_pow (Some "0.01"%string)
           (map row_of_load [0; - (37 # 100); 80]) 10).
  reflexivity.
Defined.

Lemma entry_ext (l a b : Q) : a == b -> entry l a = entry l b.
Proof.
  intros E. unfold entry. apply truncate1_ext.
  clamp_cases a l. clamp_cases b l. lra.
Qed.

(** The engine reads the initial power through its clamp against the first
    load only. *)
Lemma calculate_initial_ext
      (float_repr : Q -> string) (float_pow : Q -> Q -> option Q)
      (k_expression : option string)
      (first : LoadRecord) (rest : list LoadRecord) (a b : Q) :
  py_min (py_max 0 a) (load first) == py_min (py_max 0 b) (load first) ->
  calculate_inverter_power float_repr float_pow k_expression (first :: rest) a
  = calculate_inverter_power float_repr float_pow k_expression (first :: rest) b.
Proof.
  intros E. unfold calculate_inverter_power, trace, initial_state.
  cbn [loop].
  rewrite (iteration_entry float_repr float_pow k_expression first _ _
             (entry_ext (load first) _ _ E)).
  reflexivity.
Qed.

(** X7: the initial inverter power counts only through its clamp against the
    first load: every initial power at or above the first load gives the
    output of the first load itself, and every initial power at or below
    zero gives the output of zero. *)
Theorem initial_power_saturates
        (float_repr : Q -> string) (float_pow : Q -> Q -> option Q)
        (k_expression : option string)
        (first : LoadRecord) (rest : list LoadRecord) (initial_inv_power : Q) :
  (load first <= initial_inv_power ->
   calculate_inverter_power float_repr float_pow k_expression
     (first :: rest) initial_inv_power
   = calculate_inverter_power float_repr float_pow k_expression
       (first :: rest) (load first)) /\
  (initial_inv_power <= 0 ->
   calculate_inverter_power float_repr float_pow k_expression
     (first :: rest) initial_inv_power
   = calculate_inverter_power float_repr float_pow k_expression
       (first :: rest) 0).
Proof.
  split; intros H; apply calculate_initial_ext.
  - clamp_cases initial_inv_power (load first).
    clamp_cases (load first) (load first). lra.
  - clamp_cases initial_inv_power (load first).
    clamp_cases 0 (load first). lra.
Qed.

(** Witness for X7: 150.0 against a first load of 100.0. *)
Lemma initial_power_saturates_witness :
  calculate_inverter_power repr_tenths no_float_pow (Some "0.01"%string)
    (map row_of_load [100; 90]) 150
  = calculate_inverter_power repr_tenths no_float_pow (Some "0.01"%string)
      (map row_of_load [100; 90]) 100.
Proof.
  apply (proj1 (initial_power_saturates repr_tenths no_float_pow
                  (Some "0.01"%string) (row_of_load 100) [row_of_load 90] 150)).
  discriminate.
Defined.

(** The steps of the first rows do not depend on the rows that follow. *)
Lemma loop_entry_clamp_only_app
      (float_repr : Q -> string) (float_pow : Q -> Q -> option Q)
      (k_expression : option string) (rows more : list LoadRecord) :
  forall inv,
    firstn (List.length rows)
           (loop_entry_clamp_only float_repr float_pow k_expression (rows ++ more) inv)
    = loop_entry_clamp_only float_repr float_pow k_expression rows inv.
Proof.
  induction rows as [|row rest IH]; intros inv; [reflexivity|].
  cbn [app loop_entry_clamp_only List.length firstn]. rewrite IH. reflexivity.
Qed.

(** The records of a frame with rows appended, split at the end of the
    frame. *)
Lemma calculate_app
      (float_repr : Q -> string) (float_pow : Q -> Q -> option Q)
      (k_expression : option string)
      (first : LoadRecord) (rest more : list LoadRecord)
      (initial_inv_power : Q) :
  exists records later,
    calculate_inverter_power float_repr float_pow k_expression
      (first :: rest) initial_inv_power = Ok records /\
    calculate_inverter_power float_repr float_pow k_expression
      ((first :: rest) ++ more) initial_inv_power = Ok (records ++ later) /\
    List.length records = List.length (first :: rest) /\
    List.length later = List.length more.
Proof.
  unfold calculate_inverter_power, trace, initial_state. cbn [app].
  set (inv := py_min _ _). clearbody inv.
  rewrite (loop_entry_clamp_only_eq float_repr float_pow k_expression
             (first :: rest) inv inv eq_refl).
  rewrite (loop_entry_clamp_only_eq float_repr float_pow k_expression
             (first :: rest ++ more) inv inv eq_refl).
  pose proof (loop_entry_clamp_only_app float_repr float_pow k_expression
                (first :: rest) more inv) as Hpre.
  set (full := loop_entry_clamp_only float_repr float_pow k_expression
                 ((first :: rest) ++ more) inv) in *.
  assert (Hlen : List.length full = List.length ((first :: rest) ++ more)).
  { subst full. generalize ((first :: rest) ++ more) inv.
    induction l as [|r l IH]; intros i; [reflexivity|].
    cbn [loop_entry_clamp_only List.length]. rewrite IH. reflexivity. }
  exists (map emit (firstn (List.length (first :: rest)) full)).
  exists (map emit (skipn (List.length (first :: rest)) full)).
  split; [rewrite Hpre; reflexivity|].
  split.
  - change (first :: rest ++ more) with ((first :: rest) ++ more).
    fold full. rewrite <- map_app, firstn_skipn. reflexivity.
  - rewrite !length_map, length_firstn, length_skipn, Hlen, length_app.
    split; lia.
Qed.

(** X8: the engine is causal.  Whenever it returns on a non-empty frame and
    on that frame with rows appended, the records of the first rows are the
    records of those rows alone: the appended rows add records after them
    and change none, in spite of the lookahead at the load of the next
    row. *)
Theorem records_of_prefix
        (float_repr : Q -> string) (float_pow : Q -> Q -> option Q)
        (k_expression : option string)
        (first : LoadRecord) (rest more : list LoadRecord)
        (initial_inv_power : Q) (records all : list OutputRecord)
        (Hshort : calculate_inverter_power float_repr float_pow k_expression
                    (first :: rest) initial_inv_power = Ok records)
        (Hlong : calculate_inverter_power float_repr float_pow k_expression
                   ((first :: rest) ++ more) initial_inv_power = Ok all) :
  exists later,
    all = (records ++ later)%list /\
    List.length records = List.length (first :: rest) /\
    List.length later = List.length more.
Proof.
  destruct (calculate_app float_repr float_pow k_expression first rest more
              initial_inv_power) as (records' & later & H1 & H2 & H3 & H4).
  rewrite H1 in Hshort. injection Hshort as <-.
  rewrite H2 in Hlong. injection Hlong as <-.
  exists later. split; [reflexivity|]. split; assumption.
Qed.

(** Witness for X8: a third row appended to the loads 100.0 and 90.0. *)
Lemma records_of_prefix_witness :
  exists later,
    map emit (loop repr_tenths no_float_pow (Some "0.01"%string)
                   (map row_of_load [100; 90; 80]) 10)
    = (map emit (loop repr_tenths no_float_pow (Some "0.01"%string)
                      (map row_of_load [100; 90]) 10) ++ later)%list /\
    List.length (map emit (loop repr_tenths no_float_pow (Some "0.01"%string)
                                (map row_of_load [100; 90]) 10)) = 2%nat /\
    List.length later = 1%nat.
Proof.
  apply (records_of_prefix repr_tenths no_float_pow (Some "0.01"%string)
           (row_of_load 100) [row_of_load 90] [row_of_load 80] 10);
    reflexivity.
Defined.

(** ** More on the gain evaluator *)

Open Scope string_scope.

Lemma in_set_app (c : ascii) (a b : string) :
  in_set c (a ++ b) = in_set c a || in_set c b.
Proof.
  induction a as [|d a IH]; [reflexivity|].
  cbn [append in_set]. rewrite IH, orb_assoc. reflexivity.
Qed.

Lemma in_set_all_chars (p : ascii -> bool) (c : ascii) (s : string) :
  in_set c s = true -> p c = false -> all_chars p s = false.
Proof.
  intros Hin Hp. induction s as [|d s IH]; [discriminate|].
  cbn [in_set] in Hin. cbn [all_chars].
  destruct (Ascii.eqb c d) eqn:E.
  - apply Ascii.eqb_eq in E. subst d. rewrite Hp. reflexivity.
  - rewrite (IH Hin). apply andb_false_r.
Qed.

Lemma in_set_lstrip (c : ascii) (s : string) :
  in_set c s = true -> is_space c = false -> in_set c (lstrip s) = true.
Proof.
  intros Hin Hc. induction s as [|d s IH]; [discriminate|].
  cbn [lstrip]. destruct (is_space d) eqn:Ed; [|exact Hin].
  apply IH. cbn [in_set] in Hin.
  destruct (Ascii.eqb c d) eqn:E; [|exact Hin].
  apply Ascii.eqb_eq in E. subst d. congruence.
Qed.

Lemma in_set_rstrip (c : ascii) (s : string) :
  in_set c s = true -> is_space c = false -> in_set c (rstrip s) = true.
Proof.
  intros Hin Hc. induction s as [|d s IH]; [discriminate|].
  cbn [rstrip]. cbn [in_set] in Hin.
  destruct (Ascii.eqb c d) eqn:E.
  - apply Ascii.eqb_eq in E. subst d.
    destruct (rstrip s); [rewrite Hc|]; cbn [in_set];
      rewrite Ascii.eqb_refl; reflexivity.
  - specialize (IH Hin).
    destruct (rstrip s) as [|x r]; [discriminate|].
    cbn [in_set] in *. rewrite E. exact IH.
Qed.

Lemma in_set_strip (c : ascii) (s : string) :
  in_set c s = true -> is_space c = false -> in_set c (strip s) = true.
Proof.
  intros Hin Hc. unfold strip. apply in_set_rstrip; [|exact Hc].
  apply in_set_lstrip; assumption.
Qed.

Lemma prefix_skipped (old : string) (o s : string) :
  (forall x, in_set x o = true -> in_set x old = true) ->
  prefix o s = true -> skipped_in old (String.length o) s = true.
Proof.
  revert s. induction o as [|a o IH]; intros s Hsub Hpre; [reflexivity|].
  destruct s as [|d s]; [reflexivity|].
  cbn [prefix] in Hpre. destruct (ascii_dec a d) as [<-|]; [|discriminate].
  cbn [String.length skipped_in].
  rewrite (Hsub a) by (cbn [in_set]; rewrite Ascii.eqb_refl; reflexivity).
  apply IH; [|exact Hpre].
  intros x Hx. apply Hsub. cbn [in_set]. rewrite Hx. apply orb_true_r.
Qed.

(** A character that does not occur in [old] survives the replacement. *)
Lemma replace_from_keeps (c a : ascii) (o new : string) :
  in_set c (String a o) = false ->
  forall s skip,
    skipped_in (String a o) skip s = true ->
    in_set c s = true ->
    in_set c (replace_from (String a o) new skip s) = true.
Proof.
  intros Hc. induction s as [|d s IH]; intros skip Hskip Hin; [discriminate|].
  assert (Hd : in_set d (String a o) = true -> in_set c s = true).
  { intros Hdo. cbn [in_set] in Hin.
    destruct (Ascii.eqb c d) eqn:E; [|exact Hin].
    apply Ascii.eqb_eq in E. subst d. congruence. }
  destruct skip as [|k].
  - cbn [replace_from].
    destruct (prefix (String a o) (String d s)) eqn:Hp.
    + rewrite in_set_app. apply orb_true_iff. right.
      cbn [prefix] in Hp. destruct (ascii_dec a d) as [<-|]; [|discriminate].
      assert (Ha : in_set a (String a o) = true)
        by (cbn [in_set]; rewrite Ascii.eqb_refl; reflexivity).
      cbn [String.length Nat.pred].
      apply IH; [|exact (Hd Ha)].
      apply prefix_skipped; [|exact Hp].
      intros x Hx. cbn [in_set]. rewrite Hx. apply orb_true_r.
    + cbn [in_set] in *. destruct (Ascii.eqb c d); [reflexivity|].
      apply IH; [reflexivity | exact Hin].
  - cbn [skipped_in] in Hskip. apply andb_true_iff in Hskip as [Hdo Hk].
    cbn [replace_from]. apply IH; [exact Hk | exact (Hd Hdo)].
Qed.

Lemma replace_keeps (c a : ascii) (o new s : string) :
  in_set c (String a o) = false ->
  in_set c s = true -> in_set c (replace (String a o) new s) = true.
Proof.
  intros Hc Hin. unfold replace. apply replace_from_keeps; [exact Hc | reflexivity | exact Hin].
Qed.

(** X9: no name but the free variable ever reaches the evaluation.  An
    expression containing any ASCII character that is not an allowed one,
    not white space, not [^] and not part of [lambda] gives the default
    gain 0.01 at every ratio, whatever else it contains. *)
Theorem foreign_character_default
        (float_repr : Q -> string) (float_pow : Q -> Q -> option Q)
        (k : string) (c : ascii) (lambda_val : Q)
        (Hin : in_set c k = true)
        (Hforeign : foreign c = true) :
  parse_k_expression float_repr float_pow (Some k) lambda_val = default_k.
Proof.
  unfold foreign in Hforeign.
  apply andb_true_iff in Hforeign as [Hf Hglyph].
  apply andb_true_iff in Hf as [Hf Hname].
  apply andb_true_iff in Hf as [Hf Hspace].
  apply andb_true_iff in Hf as [_ Hallowed].
  apply negb_true_iff in Hglyph, Hname, Hspace, Hallowed.
  assert (Hcaret : in_set c "^" = false)
    by (cbn [in_set] in *; apply orb_false_iff in Hname as [-> _]; reflexivity).
  assert (Hlam : in_set c "lambda" = false)
    by (cbn [in_set] in Hname; apply orb_false_iff in Hname as [_ H]; exact H).
  assert (Hsp : in_set c " " = false).
  { cbn [in_set]. rewrite orb_false_r.
    destruct (Ascii.eqb c " ") eqn:E; [|reflexivity].
    apply Ascii.eqb_eq in E. subst c. discriminate. }
  assert (Hpre : in_set c (preprocess k) = true).
  { unfold preprocess.
    apply replace_keeps; [exact Hcaret|].
    apply replace_keeps; [exact Hsp|].
    apply in_set_strip; assumption. }
  destruct (parse_k_expression_screened float_repr float_pow (Some k) lambda_val)
    as (_ & _ & Hscreen & _).
  apply (Hscreen k eq_refl).
  apply (in_set_all_chars _ c); [|exact Hallowed].
  unfold substitute.
  apply replace_keeps; [exact Hglyph|].
  apply replace_keeps; [exact Hlam | exact Hpre].
Qed.

(** Witness for X9: the underscore of a dunder name. *)
Lemma foreign_character_default_witness :
  parse_k_expression repr_tenths no_float_pow (Some "(1).__class__") (1 # 2)
  = default_k.
Proof.
  apply (foreign_character_default repr_tenths no_float_pow
           "(1).__class__" "_"%char (1 # 2)).
  - reflexivity.
  - reflexivity.
Defined.

Close Scope string_scope.

Open Scope string_scope.

Lemma in_set_lstrip_absent (c : ascii) (s : string) :
  in_set c s = false -> in_set c (lstrip s) = false.
Proof.
  induction s as [|d s IH]; [trivial|].
  cbn [lstrip]. destruct (is_space d); [|trivial].
  cbn [in_set]. intros H. apply orb_false_iff in H as [_ H]. exact (IH H).
Qed.

Lemma in_set_rstrip_absent (c : ascii) (s : string) :
  in_set c s = false -> in_set c (rstrip s) = false.
Proof.
  induction s as [|d s IH]; [trivial|].
  cbn [in_set rstrip]. intros H. apply orb_false_iff in H as [Hd Hs].
  specialize (IH Hs).
  destruct (rstrip s) as [|x r].
  - destruct (is_space d); [reflexivity|]. cbn [in_set]. rewrite Hd. reflexivity.
  - cbn [in_set] in *. rewrite Hd. exact IH.
Qed.

Lemma in_set_replace_absent (c : ascii) (old new : string) :
  in_set c new = false ->
  forall s skip,
    in_set c s = false -> in_set c (replace_from old new skip s) = false.
Proof.
  intros Hnew. induction s as [|d s IH]; intros skip Hs; [reflexivity|].
  cbn [in_set] in Hs. apply orb_false_iff in Hs as [Hd Hs].
  cbn [replace_from]. destruct skip as [|k]; [|apply IH, Hs].
  destruct (prefix old (String d s)).
  - rewrite in_set_app, Hnew. apply IH, Hs.
  - cbn [in_set]. rewrite Hd. apply IH, Hs.
Qed.

Lemma in_set_preprocess_absent (c : ascii) (k : string) :
  in_set c "*" = false -> in_set c k = false -> in_set c (preprocess k) = false.
Proof.
  intros Hstar Hk. unfold preprocess, replace.
  apply in_set_replace_absent.
  - cbn [in_set] in *. apply orb_false_iff in Hstar as [-> _]. reflexivity.
  - apply in_set_replace_absent; [reflexivity|].
    unfold strip. apply in_set_rstrip_absent, in_set_lstrip_absent, Hk.
Qed.

(** X10: an expression in which neither the letter [l] nor the glyph occurs
    has no free variable: its gain is the same at every ratio, and does not
    depend on how the runtime prints floats. *)
Theorem constant_expression_ignores_ratio
        (float_repr float_repr' : Q -> string) (float_pow : Q -> Q -> option Q)
        (k : string) (lambda_val lambda_val' : Q)
        (Hl : in_set "l" k = false)
        (Hglyph : in_set (ascii_of_nat 206) k = false) :
  parse_k_expression float_repr float_pow (Some k) lambda_val
  = parse_k_expression float_repr' float_pow (Some k) lambda_val'.
Proof.
  pose proof (in_set_preprocess_absent "l" k eq_refl Hl) as Hl'.
  pose proof (in_set_preprocess_absent (ascii_of_nat 206) k eq_refl Hglyph) as Hg'.
  assert (Hsub : forall fr v, substitute fr (preprocess k) v = preprocess k).
  { intros fr v. unfold substitute, lambda_glyph.
    rewrite (replace_absent "l" "ambda" _ (preprocess k) Hl').
    apply replace_absent, Hg'. }
  unfold parse_k_expression, parse_k_expression_try.
  rewrite !Hsub. reflexivity.
Qed.

(** Witness for X10: an arithmetic constant. *)
Lemma constant_expression_ignores_ratio_witness :
  parse_k_expression repr_tenths no_float_pow (Some "1/(2+3)") (1 # 2)
  = parse_k_expression (fun _ => "?") no_float_pow (Some "1/(2+3)") 0.
Proof.
  apply (constant_expression_ignores_ratio repr_tenths (fun _ => "?") no_float_pow
           "1/(2+3)" (1 # 2) 0).
  - reflexivity.
  - reflexivity.
Defined.

Lemma lstrip_remove_space (s : string) :
  lstrip (remove_char " " s) = remove_char " " (lstrip s).
Proof.
  induction s as [|c s IH]; [reflexivity|].
  cbn [remove_char lstrip].
  destruct (Ascii.eqb c " ") eqn:E.
  - apply Ascii.eqb_eq in E. subst c. exact IH.
  - cbn [lstrip]. destruct (is_space c); [exact IH|].
    cbn [remove_char]. rewrite E. reflexivity.
Qed.

Lemma rstrip_all_space (s : string) :
  all_chars is_space (rstrip s) = true -> rstrip s = "".
Proof.
  induction s as [|c s IH]; [reflexivity|].
  cbn [rstrip]. destruct (rstrip s) as [|x r].
  - destruct (is_space c) eqn:E; [reflexivity|].
    cbn [all_chars]. rewrite E. discriminate.
  - cbn [all_chars]. intros H. apply andb_true_iff in H as [_ H].
    discriminate (IH H).
Qed.

Lemma remove_space_rstrip_empty (s : string) :
  remove_char " " (rstrip s) = "" -> rstrip s = "".
Proof.
  intros H. apply rstrip_all_space. apply remove_empty in H.
  revert H. apply all_chars_impl. intros c Hc.
  apply Ascii.eqb_eq in Hc. subst c. reflexivity.
Qed.

Lemma rstrip_remove_space (s : string) :
  rstrip (remove_char " " s) = remove_char " " (rstrip s).
Proof.
  induction s as [|c s IH]; [reflexivity|].
  cbn [remove_char rstrip].
  destruct (Ascii.eqb c " ") eqn:E.
  - apply Ascii.eqb_eq in E. subst c. rewrite IH.
    destruct (rstrip s) as [|x r] eqn:Er; [reflexivity|].
    cbn [remove_char]. rewrite Ascii.eqb_refl. reflexivity.
  - cbn [rstrip]. rewrite IH.
    destruct (rstrip s) as [|x r] eqn:Er.
    + cbn [remove_char]. destruct (is_space c); [reflexivity|].
      cbn [remove_char]. rewrite E. reflexivity.
    + destruct (remove_char " " (String x r)) eqn:Eq.
      * rewrite <- Er in Eq. apply remove_space_rstrip_empty in Eq. congruence.
      * rewrite <- Eq. cbn [remove_char]. rewrite E. reflexivity.
Qed.

Lemma remove_char_idem (c : ascii) (s : string) :
  remove_char c (remove_char c s) = remove_char c s.
Proof.
  induction s as [|d s IH]; [reflexivity|].
  cbn [remove_char]. destruct (Ascii.eqb d c) eqn:E; [exact IH|].
  cbn [remove_char]. rewrite E, IH. reflexivity.
Qed.

Lemma preprocess_remove_space (k : string) :
  preprocess (remove_char " " k) = preprocess k.
Proof.
  unfold preprocess. f_equal. rewrite !replace_single_empty.
  unfold strip. rewrite lstrip_remove_space, rstrip_remove_space.
  apply remove_char_idem.
Qed.

(** X11: spaces do not count.  Removing every space from an expression,
    wherever it stands, leaves its gain unchanged at every ratio. *)
Theorem spaces_are_ignored
        (float_repr : Q -> string) (float_pow : Q -> Q -> option Q)
        (k : string) (lambda_val : Q) :
  parse_k_expression float_repr float_pow (Some (remove_char " " k)) lambda_val
  = parse_k_expression float_repr float_pow (Some k) lambda_val.
Proof.
  unfold parse_k_expression, parse_k_expression_try.
  rewrite preprocess_remove_space. reflexivity.
Qed.

Close Scope string_scope.

(** ** Clock times *)

Open Scope string_scope.

Lemma split_on_length (sep : ascii) (s : string) :
  List.length (split_on sep s) = S (count_char sep s).
Proof.
  induction s as [|c s IH]; [reflexivity|].
  cbn [split_on count_char]. destruct (Ascii.eqb c sep).
  - cbn [List.length]. rewrite IH. reflexivity.
  - destruct (split_on sep s) as [|p ps]; [discriminate IH|].
    cbn [List.length] in *. exact IH.
Qed.

(** X12: a time string that does not hold exactly two colons is refused
    with a [ValueError], whatever else it holds. *)
Theorem time_needs_three_parts (time_str : string)
        (Hcolons : count_char ":" time_str <> 2%nat) :
  parse_time_to_seconds time_str = Raise ValueError.
Proof.
  unfold parse_time_to_seconds.
  pose proof (split_on_length ":" time_str) as Hlen.
  destruct (split_on ":" time_str) as [|h [|m [|s [|x r]]]]; try reflexivity.
  cbn [List.length] in Hlen. congruence.
Qed.

(** Witness for X12: hours and minutes only. *)
Lemma time_needs_three_parts_witness :
  parse_time_to_seconds "08:30" = Raise ValueError.
Proof.
  apply (time_needs_three_parts "08:30"). discriminate.
Defined.

Lemma split_on_absent (sep : ascii) (s : string) :
  in_set sep s = false -> split_on sep s = [s].
Proof.
  induction s as [|c s IH]; [reflexivity|].
  cbn [in_set split_on]. intros H. apply orb_false_iff in H as [Hc Hs].
  rewrite Ascii.eqb_sym in Hc. rewrite Hc, (IH Hs). reflexivity.
Qed.

Lemma split_on_app (sep : ascii) (h rest : string) :
  in_set sep h = false ->
  split_on sep (h ++ String sep rest) = h :: split_on sep rest.
Proof.
  induction h as [|c h IH].
  - intros _. cbn [append split_on]. rewrite Ascii.eqb_refl. reflexivity.
  - cbn [in_set append split_on]. intros H. apply orb_false_iff in H as [Hc Hs].
    rewrite Ascii.eqb_sym in Hc. rewrite Hc, (IH Hs). reflexivity.
Qed.

Lemma lstrip_with_none (p : ascii -> bool) (s : string) :
  all_chars (fun c => negb (p c)) s = true -> lstrip_with p s = s.
Proof.
  destruct s as [|c s]; [reflexivity|].
  cbn [all_chars lstrip_with]. intros H. apply andb_true_iff in H as [Hc _].
  apply negb_true_iff in Hc. rewrite Hc. reflexivity.
Qed.

Lemma rstrip_with_none (p : ascii -> bool) (s : string) :
  all_chars (fun c => negb (p c)) s = true -> rstrip_with p s = s.
Proof.
  induction s as [|c s IH]; [reflexivity|].
  cbn [all_chars rstrip_with]. intros H. apply andb_true_iff in H as [Hc Hs].
  apply negb_true_iff in Hc. rewrite (IH Hs), Hc. destruct s; reflexivity.
Qed.

Lemma int_body_digits (s : string) :
  all_chars is_digit s = true ->
  forall prev_digit acc,
    s <> "" \/ prev_digit = true ->
    int_body s prev_digit acc = Some (digits_number s acc).
Proof.
  induction s as [|c s IH]; intros Hall prev_digit acc Hne.
  - destruct Hne as [Hne | ->]; [contradiction | reflexivity].
  - cbn [all_chars] in Hall. apply andb_true_iff in Hall as [Hc Hs].
    cbn [int_body digits_number]. rewrite Hc. apply (IH Hs). right. reflexivity.
Qed.

Lemma digit_not_int_space (c : ascii) :
  is_digit c = true -> negb (is_int_space c) = true.
Proof. ascii_cases c. Qed.

Lemma digit_not_colon (c : ascii) : is_digit c = true -> negb (Ascii.eqb c ":") = true.
Proof. ascii_cases c. Qed.

(** [int] reads a non-empty string of digits as the number it writes. *)
Lemma py_int_digits (s : string) :
  isdigit s = true -> py_int s = Ok (digits_number s 0).
Proof.
  intros H. pose proof (isdigit_all s H) as Hall.
  unfold py_int.
  rewrite lstrip_with_none
    by (revert Hall; apply all_chars_impl, digit_not_int_space).
  rewrite rstrip_with_none
    by (revert Hall; apply all_chars_impl, digit_not_int_space).
  destruct s as [|c r]; [discriminate|].
  assert (E : match String c r with
              | String "-" r' => option_map Z.opp (int_body r' false 0%Z)
              | String "+" r' => int_body r' false 0%Z
              | _ => int_body (String c r) false 0%Z
              end = int_body (String c r) false 0%Z).
  { cbn [all_chars] in Hall. apply andb_true_iff in Hall as [Hc _].
    revert Hc. ascii_cases c. }
  rewrite E, (int_body_digits _ Hall false 0%Z); [reflexivity|].
  left. discriminate.
Qed.

Lemma isdigit_no_colon (s : string) : isdigit s = true -> in_set ":" s = false.
Proof.
  intros H. apply isdigit_all in H.
  apply (in_set_absent is_digit); [reflexivity | exact H].
Qed.

(** X13: three non-empty runs of digits joined by colons are read as
    hours, minutes and seconds and give [hours * 3600 + minutes * 60 +
    seconds]; no range is checked, so 99 minutes or 61 seconds are taken
    as written. *)
Theorem time_of_digits (hours minutes seconds : string)
        (Hh : isdigit hours = true)
        (Hm : isdigit minutes = true)
        (Hs : isdigit seconds = true) :
  parse_time_to_seconds (hours ++ ":" ++ minutes ++ ":" ++ seconds)
  = Ok (digits_number hours 0 * 3600 + digits_number minutes 0 * 60
        + digits_number seconds 0)%Z.
Proof.
  unfold parse_time_to_seconds.
  change (hours ++ ":" ++ minutes ++ ":" ++ seconds)
    with (hours ++ String ":" (minutes ++ String ":" seconds)).
  rewrite (split_on_app ":" hours _ (isdigit_no_colon hours Hh)).
  rewrite (split_on_app ":" minutes _ (isdigit_no_colon minutes Hm)).
  rewrite (split_on_absent ":" seconds (isdigit_no_colon seconds Hs)).
  rewrite (py_int_digits hours Hh), (py_int_digits minutes Hm),
    (py_int_digits seconds Hs).
  reflexivity.
Qed.

(** Witness for X13: a time of day out of range. *)
Lemma time_of_digits_witness :
  parse_time_to_seconds ("25" ++ ":" ++ "99" ++ ":" ++ "61")
  = Ok (digits_number "25" 0 * 3600 + digits_number "99" 0 * 60
        + digits_number "61" 0)%Z.
Proof.
  apply (time_of_digits "25" "99" "61"); reflexivity.
Defined.

(** X14: whenever [parse_time_to_seconds] of main.py accepts a string, the
    conversion of simple_analysis.py gives the same number of seconds.  The
    converse fails: with fewer or more than three parts the former raises
    while the latter sums the leading parts. *)
Theorem time_conversions_agree (time_str : string) (n : Z)
        (Hmain : parse_time_to_seconds time_str = Ok n) :
  simple_time_to_seconds time_str = Ok n.
Proof.
  unfold parse_time_to_seconds, simple_time_to_seconds in *.
  destruct (split_on ":" time_str) as [|h [|m [|s [|x r]]]]; try discriminate.
  cbn [weighted_sum].
  destruct (py_int h) as [a|]; [|discriminate].
  destruct (py_int m) as [b|]; [|discriminate].
  destruct (py_int s) as [c|]; [|discriminate].
  injection Hmain as <-. f_equal. lia.
Qed.

(** Witness for X14. *)
Lemma time_conversions_agree_witness :
  simple_time_to_seconds "08:10:00" = Ok 29400%Z.
Proof.
  apply (time_conversions_agree "08:10:00" 29400%Z). reflexivity.
Defined.

(** Where the two conversions part: hours and minutes only, and a fourth
    part. *)
Example time_conversions_differ :
  parse_time_to_seconds "08:30" = Raise ValueError /\
  simple_time_to_seconds "08:30" = Ok 30600%Z /\
  parse_time_to_seconds "1:2:3:4" = Raise ValueError /\
  simple_time_to_seconds "1:2:3:4" = Ok 3723%Z.
Proof. repeat split. Qed.

Close Scope string_scope.

(** ** The time filter and its caller *)

Section TimeFilterProperties.

Variable to_datetime : list string -> option (list time_of_day).

Lemma in_window_iff (s e : Z) (p : LoadRecord * time_of_day) :
  in_window s e p = true <-> (s <= time_seconds (snd p) <= e)%Z.
Proof.
  unfold in_window. rewrite andb_true_iff, !Z.leb_le. reflexivity.
Qed.

(** X15: when the filter returns a frame, it shows no message, the frame is
    not empty and not longer than the input, both times were accepted, and
    the frame holds exactly the rows whose time of day lies between the
    start and the end, both included. *)
Theorem filter_returns_window
        (df : list LoadRecord) (start_time end_time : string)
        (filtered_df : list LoadRecord) (messages : list ui_error)
        (Hrun : filter_data_by_time to_datetime df start_time end_time
                = (Some filtered_df, messages)) :
  messages = [] /\ filtered_df <> [] /\
  (List.length filtered_df <= List.length df)%nat /\
  exists start_seconds end_seconds times,
    parse_time_to_seconds start_time = Ok start_seconds /\
    parse_time_to_seconds end_time = Ok end_seconds /\
    to_datetime (map utc_time df) = Some times /\
    forall row,
      In row filtered_df <->
      exists t, In (row, t) (combine df times) /\
                (start_seconds <= time_seconds t <= end_seconds)%Z.
Proof.
  unfold filter_data_by_time in Hrun.
  destruct (parse_time_to_seconds start_time) as [s|]; [|discriminate].
  destruct (parse_time_to_seconds end_time) as [e|]; [|discriminate].
  destruct (to_datetime (map utc_time df)) as [times|]; [|discriminate].
  cbv zeta in Hrun.
  set (kept := filter (in_window s e) (combine df times)) in *.
  assert (Hlen : (List.length (map fst kept) <= List.length df)%nat).
  { rewrite length_map. subst kept.
    apply Nat.le_trans with (List.length (combine df times)).
    - apply filter_length_le.
    - rewrite length_combine. apply Nat.le_min_l. }
  assert (Hin : forall row,
             In row (map fst kept) <->
             exists t, In (row, t) (combine df times) /\
                       (s <= time_seconds t <= e)%Z).
  { intros row. rewrite in_map_iff. split.
    - intros [[r t] [<- Hp]]. subst kept. apply filter_In in Hp as [Hp Hw].
      exists t. split; [exact Hp | apply (in_window_iff s e (r, t)), Hw].
    - intros [t [Hp Hw]]. exists (row, t). split; [reflexivity|].
      subst kept. apply filter_In. split; [exact Hp|].
      apply (in_window_iff s e (row, t)), Hw. }
  destruct (map fst kept) as [|r rs] eqn:E; [discriminate|].
  injection Hrun as <- <-.
  split; [reflexivity|]. split; [discriminate|]. split; [exact Hlen|].
  exists s, e, times. repeat split; try reflexivity; apply Hin.
Qed.

Lemma filter_returns_window_nonempty
      (df : list LoadRecord) (start_time end_time : string)
      (filtered_df : list LoadRecord) (messages : list ui_error) :
  filter_data_by_time to_datetime df start_time end_time
  = (Some filtered_df, messages) ->
  exists first rest, filtered_df = first :: rest.
Proof.
  unfold filter_data_by_time.
  destruct (parse_time_to_seconds start_time) as [s|]; [|discriminate].
  destruct (parse_time_to_seconds end_time) as [e|]; [|discriminate].
  destruct (to_datetime (map utc_time df)) as [times|]; [|discriminate].
  cbv zeta.
  destruct (map fst (filter (in_window s e) (combine df times))) as [|r rs];
    [discriminate|].
  intros [= <- _]. exists r, rs. reflexivity.
Qed.

(** X16: a window that ends before it starts never gives a frame: the
    filter returns [None], and shows one message. *)
Theorem empty_window_no_frame
        (df : list LoadRecord) (start_time end_time : string)
        (start_seconds end_seconds : Z)
        (Hstart : parse_time_to_seconds start_time = Ok start_seconds)
        (Hend : parse_time_to_seconds end_time = Ok end_seconds)
        (Hempty : (end_seconds < start_seconds)%Z) :
  fst (filter_data_by_time to_datetime df start_time end_time) = None /\
  List.length (snd (filter_data_by_time to_datetime df start_time end_time)) = 1%nat.
Proof.
  unfold filter_data_by_time. rewrite Hstart, Hend.
  destruct (to_datetime (map utc_time df)) as [times|]; [|split; reflexivity].
  cbv zeta.
  assert (E : filter (in_window start_seconds end_seconds) (combine df times) = []).
  { induction (combine df times) as [|p l IH]; [reflexivity|].
    cbn [filter]. rewrite IH.
    destruct (in_window start_seconds end_seconds p) eqn:W; [|reflexivity].
    apply in_window_iff in W. lia. }
  rewrite E. split; reflexivity.
Qed.

Variable float_repr : Q -> string.
Variable float_pow : Q -> Q -> option Q.

(** X17: behind the compute button the engine is never called on an empty
    frame: whenever the filter lets the computation start, the frame handed
    to the engine has at least one row, and whenever the engine then
    returns, it returns one record for each filtered row, at least one. *)
Theorem compute_results_never_empty
        (df : list LoadRecord) (start_time end_time : string)
        (initial_inv_power : Q) (k_expression : option string)
        (outcome : result (list OutputRecord))
        (Hrun : compute_results to_datetime float_repr float_pow df start_time
                  end_time initial_inv_power k_expression = Some outcome) :
  exists filtered_df,
    fst (filter_data_by_time to_datetime df start_time end_time) = Some filtered_df /\
    filtered_df <> [] /\
    outcome = calculate_inverter_power float_repr float_pow k_expression
                filtered_df initial_inv_power /\
    forall records,
      outcome = Ok records ->
      records <> [] /\ List.length records = List.length filtered_df.
Proof.
  unfold compute_results in Hrun.
  destruct (filter_data_by_time to_datetime df start_time end_time)
    as [[filtered_df|] messages] eqn:Ef; [|discriminate].
  cbn [fst] in Hrun. injection Hrun as <-.
  destruct (filter_returns_window_nonempty df start_time end_time filtered_df
              messages Ef) as [first [rest ->]].
  exists (first :: rest).
  split; [reflexivity|]. split; [discriminate|]. split; [reflexivity|].
  intros records Hok.
  assert (Hlen : List.length records = List.length (first :: rest)).
  { symmetry. apply (Forall2_length (R := fun _ _ => True)).
    revert Hok. apply calculate_Forall2. trivial. }
  split; [|exact Hlen].
  intros ->. discriminate Hlen.
Qed.

End TimeFilterProperties.

Open Scope string_scope.

(** Witness for X15: the window 08:00:00 to 08:10:00 keeps the three rows
    inside it. *)
Lemma filter_returns_window_witness :
  [] = ([] : list ui_error) /\
  [row_at "08:00:00" 100; row_at "08:05:00" 90; row_at "08:10:00" 80] <> [] /\
  (List.length [row_at "08:00:00" 100; row_at "08:05:00" 90; row_at "08:10:00" 80]
   <= List.length example_frame)%nat /\
  exists start_seconds end_seconds times,
    parse_time_to_seconds "08:00:00" = Ok start_seconds /\
    parse_time_to_seconds "08:10:00" = Ok end_seconds /\
    clock_reader (map utc_time example_frame) = Some times /\
    forall row,
      In row [row_at "08:00:00" 100; row_at "08:05:00" 90; row_at "08:10:00" 80] <->
      exists t, In (row, t) (combine example_frame times) /\
                (start_seconds <= time_seconds t <= end_seconds)%Z.
Proof.
  apply (filter_returns_window clock_reader example_frame "08:00:00" "08:10:00").
  reflexivity.
Defined.

(** Witness for X16: the same window the other way round. *)
Lemma empty_window_no_frame_witness :
  fst (filter_data_by_time clock_reader example_frame "08:10:00" "08:00:00") = None /\
  List.length (snd (filter_data_by_time clock_reader example_frame
                      "08:10:00" "08:00:00")) = 1%nat.
Proof.
  apply (empty_window_no_frame clock_reader example_frame "08:10:00" "08:00:00"
           29400%Z 28800%Z).
  - reflexivity.
  - reflexivity.
  - reflexivity.
Defined.

(** Witness for X17. *)
Lemma compute_results_never_empty_witness :
  exists filtered_df,
    fst (filter_data_by_time clock_reader example_frame "08:00:00" "08:10:00")
      = Some filtered_df /\
    filtered_df <> [] /\
    calculate_inverter_power repr_tenths no_float_pow (Some "0.01")
      [row_at "08:00:00" 100; row_at "08:05:00" 90; row_at "08:10:00" 80] 10
    = calculate_inverter_power repr_tenths no_float_pow (Some "0.01")
        filtered_df 10 /\
    forall records,
      calculate_inverter_power repr_tenths no_float_pow (Some "0.01")
        [row_at "08:00:00" 100; row_at "08:05:00" 90; row_at "08:10:00" 80] 10
      = Ok records ->
      records <> [] /\ List.length records = List.length filtered_df.
Proof.
  apply (compute_results_never_empty clock_reader repr_tenths no_float_pow
           example_frame "08:00:00" "08:10:00" 10 (Some "0.01")).
  reflexivity.
Defined.

Close Scope string_scope.

(** ** Reading the file *)

Section ReadCsvProperties.

Variable frame : Type.
Variable file_state : Type.
Variable shape1 : frame -> nat.
Variable read_csv : string -> file_state -> result frame * file_state.

Lemma try_encodings_outcome (encs : list string) :
  forall st,
    match fst (try_encodings frame file_state shape1 read_csv encs st) with
    | Ok df => (5 <= shape1 df)%nat
    | Raise e => e = ValueError
    end.
Proof.
  induction encs as [|enc rest IH]; intros st; [reflexivity|].
  cbn [try_encodings].
  destruct (read_csv enc st) as [[df|e] st']; [|apply IH].
  destruct (5 <=? shape1 df)%nat eqn:E; [|apply IH].
  cbn [fst]. apply Nat.leb_le, E.
Qed.

(** X18: with the encoding left to automatic detection (no encoding, an
    empty one, or the label of the automatic choice), the reader either
    returns a frame with at least five columns, so that the load column
    exists, or raises a [ValueError]; frames with fewer columns and the
    errors of the single attempts are never passed on. *)
Theorem auto_detect_five_columns (user_encoding : option string) (st : file_state)
        (Hauto : user_encoding = None \/ user_encoding = Some EmptyString \/
                 user_encoding = Some auto_detect_label) :
  match fst (read_csv_with_encoding frame file_state shape1 read_csv
               user_encoding st) with
  | Ok df => (5 <= shape1 df)%nat
  | Raise e => e = ValueError
  end.
Proof.
  destruct Hauto as [-> | [-> | ->]]; apply try_encodings_outcome.
Qed.

End ReadCsvProperties.

(** Witness for X18: the third encoding is the first to give five columns. *)
Lemma auto_detect_five_columns_witness :
  match fst (read_csv_with_encoding nat nat (fun columns => columns)
               example_read_csv None 0%nat) with
  | Ok df => (5 <= df)%nat
  | Raise e => e = ValueError
  end.
Proof.
  apply (auto_detect_five_columns nat nat (fun columns => columns)
           example_read_csv None 0%nat).
  left. reflexivity.
Defined.

(** ** The recurrence of simple_analysis.py *)

Section SimpleRecurrenceProperties.

Variable float_repr : Q -> string.
Variable eval_globals : string -> option Q.
Variable k_expression : option string.

(** A truncated percentage [truncate(x / l * 100)], or zero when the load is
    not positive, lies between 0 and 100 when [0 <= x <= l]. *)
Lemma percent_bounds (x l : Q) :
  (0 < l -> 0 <= x /\ x <= l) ->
  0 <= truncate1 (if Qlt_bool 0 l then x / l * 100 else 0) /\
  truncate1 (if Qlt_bool 0 l then x / l * 100 else 0) <= 100.
Proof.
  intros H. destruct (Qlt_bool 0 l) eqn:E; [|split; discriminate].
  apply Qlt_bool_iff in E. destruct (H E) as [H0 H1].
  assert (0 <= x / l) by (apply Qle_shift_div_l; [exact E | lra]).
  assert (x / l <= 1) by (apply Qle_shift_div_r; [exact E | lra]).
  split; [apply truncate1_nonneg; lra|].
  apply Qle_trans with (x / l * 100); [apply truncate1_le | lra].
Qed.

Lemma later_ok (rows : list LoadRecord) :
  forall prev_lambda prev_inv_power,
    Forall2 simple_record_ok rows
      (SimpleRecurrence.later float_repr eval_globals k_expression
         rows prev_lambda prev_inv_power).
Proof.
  induction rows as [|row rest IH]; intros prev_lambda prev_inv_power;
    [constructor|].
  cbn [SimpleRecurrence.later]. constructor; [|apply IH].
  set (inc := truncate1 (_ * load row)).
  fold (entry (load row) (prev_inv_power + inc)).
  pose proof (entry_le (load row) (prev_inv_power + inc)) as Hle.
  pose proof (entry_nonneg (load row) (prev_inv_power + inc)) as Hge.
  set (e := entry (load row) (prev_inv_power + inc)) in *. clearbody e.
  unfold simple_record_ok.
  cbn [SimpleRecurrence.rec_time SimpleRecurrence.rec_load
       SimpleRecurrence.rec_inv_power SimpleRecurrence.rec_inv_percent
       SimpleRecurrence.rec_lambda].
  split; [reflexivity|]. split; [reflexivity|].
  split; [exact Hge|].
  assert (He : 0 < load row -> 0 <= e /\ e <= load row) by (intros Hl; split; lra).
  exact (percent_bounds e (load row) He).
Qed.

(** X19: the recurrence of the older script fails with an [IndexError] on
    an empty frame, which nothing upstream rules out; whenever it returns,
    the frame was not empty and there is one record per row, in order, with
    the time and the untruncated load of the row, an inverter power that is
    at least zero when the load is, and a percentage between 0 and 100. *)
Theorem simple_recurrence_records
        (rows : list LoadRecord) (initial_inv_power : Q) :
  (rows = [] ->
   SimpleRecurrence.results float_repr eval_globals k_expression
     rows initial_inv_power = Raise IndexError) /\
  (forall records,
      SimpleRecurrence.results float_repr eval_globals k_expression
        rows initial_inv_power = Ok records ->
      rows <> [] /\ Forall2 simple_record_ok rows records).
Proof.
  split; [intros ->; reflexivity|].
  intros records Hrun.
  destruct rows as [|row0 rest]; [discriminate|].
  cbn [SimpleRecurrence.results] in Hrun. injection Hrun as <-.
  split; [discriminate|].
  constructor; [|apply later_ok].
  pose proof (clamp_le initial_inv_power (load row0)) as Hle.
  pose proof (clamp_nonneg initial_inv_power (load row0)) as Hge.
  set (c := py_min (py_max 0 initial_inv_power) (load row0)) in *. clearbody c.
  unfold simple_record_ok.
  cbn [SimpleRecurrence.rec_time SimpleRecurrence.rec_load
       SimpleRecurrence.rec_inv_power SimpleRecurrence.rec_inv_percent
       SimpleRecurrence.rec_lambda].
  split; [reflexivity|]. split; [reflexivity|].
  split; [intros Hl; apply truncate1_nonneg, Hge, Hl|].
  assert (Hc : 0 < load row0 -> 0 <= c /\ c <= load row0)
    by (intros Hl; split; [apply Hge; lra | exact Hle]).
  exact (percent_bounds c (load row0) Hc).
Qed.

End SimpleRecurrenceProperties.

(** Witness for X19: the loads 100.0, 90.0, 80.0 with the gain 0.01. *)
Lemma simple_recurrence_records_witness :
  map row_of_load [100; 90; 80] <> [] /\
  Forall2 simple_record_ok (map row_of_load [100; 90; 80])
    ({| SimpleRecurrence.rec_time := EmptyString;
        SimpleRecurrence.rec_load := 100;
        SimpleRecurrence.rec_inv_power := truncate1 10;
        SimpleRecurrence.rec_inv_percent := truncate1 (10 / 100 * 100);
        SimpleRecurrence.rec_lambda := truncate1 ((100 - 10) / 100) |}
       :: SimpleRecurrence.later repr_tenths (fun _ => Some (1 # 100))
            (Some "0.01"%string) (map row_of_load [90; 80])
            (truncate1 ((100 - 10) / 100)) 10).
Proof.
  apply (proj2 (simple_recurrence_records repr_tenths (fun _ => Some (1 # 100))
                  (Some "0.01"%string) (map row_of_load [100; 90; 80]) 10)).
  reflexivity.
Defined.

(** X20: the two scripts agree on the inverter power of the first row:
    whenever both return on the same frame, initial power and gain
    expression, their first records carry the same inverter power. *)
Theorem engines_agree_on_first_row
        (float_repr : Q -> string) (float_pow : Q -> Q -> option Q)
        (eval_globals : string -> option Q)
        (k_expression : option string)
        (df : list LoadRecord) (initial_inv_power : Q)
        (r : OutputRecord) (rs : list OutputRecord)
        (s : SimpleRecurrence.SimpleRecord) (ss : list SimpleRecurrence.SimpleRecord)
        (Hmain : calculate_inverter_power float_repr float_pow k_expression
                   df initial_inv_power = Ok (r :: rs))
        (Hsimple : SimpleRecurrence.results float_repr eval_globals k_expression
                     df initial_inv_power = Ok (s :: ss)) :
  inverter_output r = SimpleRecurrence.rec_inv_power s.
Proof.
  destruct df as [|first rest]; [discriminate|].
  unfold calculate_inverter_power, trace, initial_state in Hmain.
  cbn [loop map] in Hmain. injection Hmain as <- _.
  cbn [SimpleRecurrence.results] in Hsimple. injection Hsimple as <- _.
  cbn [emit inverter_output SimpleRecurrence.rec_inv_power].
  rewrite iteration_inv_curr.
  unfold entry. apply truncate1_ext.
  clamp_cases initial_inv_power (load first).
  clamp_cases y (load first). lra.
Qed.

(** Witness for X20: the loads 100.0, 90.0, 80.0 from an initial power of
    10.0, gain 0.01. *)
Lemma engines_agree_on_first_row_witness :
  inverter_output
    (emit (iteration repr_tenths no_float_pow (Some "0.01"%string)
             (row_of_load 100) 10))
  = truncate1 10.
Proof.
  apply (engines_agree_on_first_row repr_tenths no_float_pow
           (fun _ => Some (1 # 100)) (Some "0.01"%string)
           (map row_of_load [100; 90; 80]) 10
           (emit (iteration repr_tenths no_float_pow (Some "0.01"%string)
                    (row_of_load 100) 10))
           (map emit (loop repr_tenths no_float_pow (Some "0.01"%string)
                           (map row_of_load [90; 80]) (108 # 10)))
           {| SimpleRecurrence.rec_time := EmptyString;
              SimpleRecurrence.rec_load := 100;
              SimpleRecurrence.rec_inv_power := truncate1 10;
              SimpleRecurrence.rec_inv_percent := truncate1 (10 / 100 * 100);
              SimpleRecurrence.rec_lambda := truncate1 ((100 - 10) / 100) |}
           (SimpleRecurrence.later repr_tenths (fun _ => Some (1 # 100))
              (Some "0.01"%string) (map row_of_load [90; 80])
              (truncate1 ((100 - 10) / 100)) 10));
    reflexivity.
Defined.

(** From the second row on they part: the older script multiplies the gain
    at the previous ratio by the load of the current row. *)
Example engines_differ_on_second_row :
  exists r0 r1 r2 s0 s1 s2,
    calculate_inverter_power repr_tenths no_float_pow (Some "0.01"%string)
      (map row_of_load [100; 90; 80]) 10 = Ok [r0; r1; r2] /\
    SimpleRecurrence.results repr_tenths
      (fun s => if String.eqb s "0.01" then Some (1 # 100) else None)
      (Some "0.01"%string) (map row_of_load [100; 90; 80]) 10 = Ok [s0; s1; s2] /\
    inverter_output r1 == 108 # 10 /\
    SimpleRecurrence.rec_inv_power s1 == 107 # 10.
Proof.
  do 6 eexists. split; [reflexivity|]. split; [reflexivity|].
  split; reflexivity.
Qed.

(** ** Growth of the inverter output *)

Section Growth.

Variable float_repr : Q -> string.
Variable float_pow : Q -> Q -> option Q.
Variable k_expression : option string.

Hypothesis gain_nonneg :
  forall l, 0 <= parse_k_expression float_repr float_pow k_expression l.





End Growth.


(** ** Binary floating point: where the code leaves the exact arithmetic *)

(** C7: [truncate_decimal] does not keep to the floor on binary64 values.
    For [v = 0.6 * 3], the float 1.7999999999999998, whose exact floor at
    one decimal is 1.7, it returns 1.8, a value above [v]: the product
    [v * 10] is rounded to 18.0 before [math.floor] sees it.  Likewise
    [0.3 * 3], the float 0.8999999999999999, gives 0.9. *)
Theorem truncate_decimal_rounds_up :
  let v := PrimFloat.mul (Binary64.dec 6 10) (Binary64.of_int 3) in
  let w := PrimFloat.mul (Binary64.dec 3 10) (Binary64.of_int 3) in
  (Binary64.truncate_decimal v = inr (Binary64.dec 18 10) /\
   PrimFloat.ltb v (Binary64.dec 18 10) = true /\
   exists q, Binary64.to_Q v = Some q /\ q < 18 # 10 /\
             truncate_decimal q 1 == 17 # 10) /\
  (Binary64.truncate_decimal w = inr (Binary64.dec 9 10) /\
   PrimFloat.ltb w (Binary64.dec 9 10) = true /\
   exists q, Binary64.to_Q w = Some q /\ q < 9 # 10 /\
             truncate_decimal q 1 == 8 # 10).
Proof.
  cbv zeta. split.
  - split; [vm_compute; reflexivity|]. split; [vm_compute; reflexivity|].
    eexists. split; [vm_compute; reflexivity|].
    split; vm_compute; reflexivity.
  - split; [vm_compute; reflexivity|]. split; [vm_compute; reflexivity|].
    eexists. split; [vm_compute; reflexivity|].
    split; vm_compute; reflexivity.
Qed.

(** C4: on the single load 42.5 with initial power 34.0 and the gain 1 the
    engine emits the adjustment 1.7, the aggressive adjustment 8.5 and the
    adjustment ratio 0.1, where the truncated quotient of 1.7 by 8.5 is
    0.2: the binary64 quotient is 0.19999999999999998. *)
Theorem adjustment_ratio_below_quotient :
  exists st,
    Binary64.calculate_inverter_power (fun _ => Binary64.of_int 1)
      [Binary64.dec 425 10] (Binary64.of_int 34) = inr [st] /\
    Binary64.inc_i st = Binary64.dec 17 10 /\
    Binary64.aggressive_i st = Binary64.dec 85 10 /\
    Binary64.ratio_i st = Binary64.dec 1 10 /\
    truncate_decimal ((17 # 10) / (85 # 10)) 1 == 2 # 10.
Proof.
  eexists. split; [vm_compute; reflexivity|].
  repeat split; vm_compute; reflexivity.
Qed.

(** C9: on the single load 18.0 with initial power 16.2 the engine emits
    the inverter output 16.2 and the percentage 89.9, where 16.2 / 18.0 *
    100 truncated is 90.0: the binary64 value of the expression is
    89.99999999999999. *)
Theorem percent_below_quotient :
  exists st,
    Binary64.calculate_inverter_power (fun _ => Binary64.dec 1 100)
      [Binary64.of_int 18] (Binary64.dec 162 10) = inr [st] /\
    Binary64.out_load st = Binary64.of_int 18 /\
    Binary64.inv_curr st = Binary64.dec 162 10 /\
    Binary64.inv_percent_i st = Binary64.dec 899 10 /\
    truncate_decimal ((162 # 10) / 18 * 100) 1 == 90.
Proof.
  eexists. split; [vm_compute; reflexivity|].
  repeat split; vm_compute; reflexivity.
Qed.

(** The same rounding lifts the inverter output above the load of its row:
    the load [0.6 * 3] with initial power 5.0 is emitted as 1.8, and so is
    the inverter output. *)
Example inverter_output_above_raw_load :
  let l := PrimFloat.mul (Binary64.dec 6 10) (Binary64.of_int 3) in
  exists st,
    Binary64.calculate_inverter_power (fun _ => Binary64.dec 1 100)
      [l] (Binary64.of_int 5) = inr [st] /\
    Binary64.out_load st = Binary64.dec 18 10 /\
    Binary64.inv_curr st = Binary64.dec 18 10 /\
    PrimFloat.ltb l (Binary64.inv_curr st) = true.
Proof.
  cbv zeta. eexists. split; [vm_compute; reflexivity|].
  repeat split; vm_compute; reflexivity.
Qed.

(** An infinite gain stops the engine in [math.floor]. *)
Example infinite_gain_fails :
  Binary64.calculate_inverter_power (fun _ => PrimFloat.infinity)
    [Binary64.of_int 100] (Binary64.of_int 10)
  = inl Binary64.FloorOfInfinity.
Proof. vm_compute. reflexivity. Qed.
